(** * UniPro TX DMA engine (arch/arm/src/tsb/tsb_unipro_tx_dma.c)

    A shallow embedding of the transmit path of the Toshiba bridge UniPro
    driver: the per-CPort descriptor queues, the channel picker, the flush
    performed on a CPort reset, the DMA event handler, the transfer
    submission, the asynchronous and blocking send entry points and the
    initialisation of the channel pool.

    C objects are addressed by integers ([Z]); [0] is [NULL] where the
    source compares a pointer with [NULL].  Calls into the DMA and ATABL
    device drivers, and the callbacks handed to the driver by its users,
    are recorded in a trace; what those calls return is supplied by the
    caller of each model function. *)

From stdpp Require Import base option list gmap.
From Stdlib Require Import ZArith Lia.

Open Scope Z_scope.

(** ** Machine integers *)

(** [unsigned int], [uint32_t] and [size_t] are 32 bits wide on the
    Cortex-M3 of the bridge. *)
Definition u32 (x : Z) : Z := x `mod` 2 ^ 32.

(** ** Constants and macros defined outside the file *)

(** The values of the DMA event bits and of the DMA error code
    (nuttx/device_dma.h), the register map (tsb_unipro_es2.h), the number
    of CPorts and the build configuration are not part of the sources at
    hand; the development is parametric in them. *)
Class Platform := {
  (** CONFIG_DEBUG: whether [DEBUGASSERT] is compiled in. *)
  CONFIG_DEBUG : bool;
  (** CONFIG_ARCH_UNIPROTX_DMA_WMB *)
  CONFIG_ARCH_UNIPROTX_DMA_WMB : bool;
  (** CONFIG_ARCH_UNIPROTX_DMA_NUM_CHANNELS, the size of the channel pool. *)
  UNIPRO_DMA_CHANNEL_COUNT : Z;
  DEVICE_DMA_CALLBACK_EVENT_START : Z;
  DEVICE_DMA_CALLBACK_EVENT_COMPLETE : Z;
  DEVICE_DMA_CALLBACK_EVENT_ERROR : Z;
  DEVICE_DMA_CALLBACK_EVENT_RECOVERED : Z;
  DEVICE_DMA_CALLBACK_EVENT_DEQUEUED : Z;
  DEVICE_DMA_ERROR_DMA_FAILED : Z;
  REG_TX_BUFFER_SPACE_OFFSET_REG : Z → Z;
  unipro_cport_count : Z;
}.

(** errno.h *)
Definition OK : Z := 0.
Definition ENOMEM : Z := 12.
Definition ENODEV : Z := 19.
Definition EINVAL : Z := 22.
Definition EPIPE : Z := 32.
Definition ECONNRESET : Z := 104.

(** ** Outcomes of a C function *)

(** A function either returns, stops in a failed [DEBUGASSERT], or runs
    into behaviour the C standard leaves undefined (a dereference of
    [NULL] or of a freed or out-of-bounds object, a division by zero). *)
Inductive res (A : Type) : Type :=
  | Ret (a : A)
  | Panic
  | Undef.
Arguments Ret {A} a.
Arguments Panic {A}.
Arguments Undef {A}.

#[global] Instance res_ret : MRet res := λ A a, Ret a.
#[global] Instance res_bind : MBind res := λ A B f m,
  match m with
  | Ret a => f a
  | Panic => Panic
  | Undef => Undef
  end.

(** Reading through a pointer: undefined when the object is not there. *)
Definition deref {A} (o : option A) : res A :=
  match o with
  | Some a => Ret a
  | None => Undef
  end.

Definition DEBUGASSERT `{Platform} (b : bool) : res () :=
  if CONFIG_DEBUG && negb b then Panic else Ret ().

(** ** Data model *)

(** [unipro_send_completion_t]: the completion handed to
    [unipro_send_async_dma].  The blocking adapter passes its own
    [unipro_send_cb]; any other function is opaque. *)
Inductive completion :=
  | CbNull
  | CbSendSync
  | CbUser (f : Z).

#[global] Instance completion_eq_dec : EqDecision completion.
Proof. solve_decision. Defined.

(** [struct dma_channel] *)
Record dma_channel := DmaChannel {
  ch_chan : Z;
  ch_req : Z;
  ch_cportid : Z;
  ch_saved_tx_water_mark : Z;
}.

(** [struct unipro_xfer_descriptor].  [desc_cport] is the [cport] pointer,
    kept as the key of the CPort table; [channel] is the pointer into
    [unipro_dma.dma_channels], kept as the index of the entry it points
    to, [None] for [NULL]; the [list] node is the membership of the
    descriptor's address in its CPort's [tx_fifo]. *)
Record unipro_xfer_descriptor := Desc {
  desc_cport : Z;
  data : Z;
  len : Z;
  priv : Z;
  callback : completion;
  data_offset : Z;
  channel : option nat;
  dma_op : Z;
}.

(** [struct unipro_xfer_descriptor_sync]; [retval] is indeterminate until
    [unipro_send_cb] stores a status. *)
Record unipro_xfer_descriptor_sync := DescSync {
  lock : Z;
  retval : option Z;
}.

(** Modelled from the spec: [struct cport] is declared in tsb_unipro.h,
    which is missing; these are the fields the file reads and writes.
    [tx_fifo] is the list headed at [cport->tx_fifo], first node first. *)
Record cport := Cport {
  cportid : Z;
  tx_fifo : list Z;
  pending_reset : bool;
  reset_completion_cb : Z;
  reset_completion_cb_priv : Z;
  tx_buf : Z;
}.

(** The scatter-gather entry and the callback set-up of a
    [struct device_dma_op] as [unipro_dma_xfer] fills it. *)
Record device_dma_op := DmaOp {
  callback_arg : Z;
  callback_events : Z;
  sg_count : Z;
  sg_len : Z;
  src_addr : Z;
  dst_addr : Z;
}.

(** Calls that leave the file. *)
Inductive event :=
  (** [desc->callback(status, desc->data, desc->priv)] of a descriptor
      queued on CPort [cp] *)
  | EvCallback (cp : Z) (cb : completion) (status data priv : Z)
  | EvResetCport (cportid : Z)
  | EvResetCompletion (cb cportid priv : Z)
  | EvFree (desc : Z)
  | EvSetEom (cp : Z)
  | EvDmaOpFree (op : Z)
  | EvDmaEnqueue (chan op : Z) (o : device_dma_op)
  | EvDmaDequeue (chan op : Z)
  | EvAtablDeactivate (req : Z)
  | EvAtablDisconnect (req : Z)
  | EvAtablConnect (cportid req : Z)
  | EvAtablActivate (req : Z)
  | EvAtablTransferCompleted (req : Z)
  | EvAtablReqFree (i : nat)
  | EvDmaChanFree (i : nat)
  | EvDeviceClose (dev : Z).

#[global] Instance device_dma_op_eq_dec : EqDecision device_dma_op.
Proof. solve_decision. Defined.
#[global] Instance event_eq_dec : EqDecision event.
Proof. solve_decision. Defined.

(** The driver's globals ([worker], [unipro_dma]), the objects it reaches
    through pointers, the UniPro register file and the trace. *)
Record state := State {
  cports : gmap Z cport;
  descs : gmap Z unipro_xfer_descriptor;
  sync_descs : gmap Z unipro_xfer_descriptor_sync;
  dev : Z;
  atabl_dev : Z;
  dma_channels : list dma_channel;
  max_channel : Z;
  tx_fifo_lock : Z;
  worker_thread : bool;
  regs : Z → Z;
  trace : list event;
}.

Definition set_cports (f : gmap Z cport → gmap Z cport) (s : state) : state :=
  State (f (cports s)) (descs s) (sync_descs s) (dev s) (atabl_dev s)
        (dma_channels s) (max_channel s) (tx_fifo_lock s) (worker_thread s)
        (regs s) (trace s).
Definition set_descs
    (f : gmap Z unipro_xfer_descriptor → gmap Z unipro_xfer_descriptor)
    (s : state) : state :=
  State (cports s) (f (descs s)) (sync_descs s) (dev s) (atabl_dev s)
        (dma_channels s) (max_channel s) (tx_fifo_lock s) (worker_thread s)
        (regs s) (trace s).
Definition set_sync_descs
    (f : gmap Z unipro_xfer_descriptor_sync → gmap Z unipro_xfer_descriptor_sync)
    (s : state) : state :=
  State (cports s) (descs s) (f (sync_descs s)) (dev s) (atabl_dev s)
        (dma_channels s) (max_channel s) (tx_fifo_lock s) (worker_thread s)
        (regs s) (trace s).
Definition set_devs (d a : Z) (s : state) : state :=
  State (cports s) (descs s) (sync_descs s) d a
        (dma_channels s) (max_channel s) (tx_fifo_lock s) (worker_thread s)
        (regs s) (trace s).
Definition set_dma_channels (f : list dma_channel → list dma_channel)
    (s : state) : state :=
  State (cports s) (descs s) (sync_descs s) (dev s) (atabl_dev s)
        (f (dma_channels s)) (max_channel s) (tx_fifo_lock s) (worker_thread s)
        (regs s) (trace s).
Definition set_max_channel (n : Z) (s : state) : state :=
  State (cports s) (descs s) (sync_descs s) (dev s) (atabl_dev s)
        (dma_channels s) n (tx_fifo_lock s) (worker_thread s)
        (regs s) (trace s).
Definition set_tx_fifo_lock (n : Z) (s : state) : state :=
  State (cports s) (descs s) (sync_descs s) (dev s) (atabl_dev s)
        (dma_channels s) (max_channel s) n (worker_thread s)
        (regs s) (trace s).
Definition set_worker_thread (b : bool) (s : state) : state :=
  State (cports s) (descs s) (sync_descs s) (dev s) (atabl_dev s)
        (dma_channels s) (max_channel s) (tx_fifo_lock s) b
        (regs s) (trace s).
Definition set_regs (f : (Z → Z) → Z → Z) (s : state) : state :=
  State (cports s) (descs s) (sync_descs s) (dev s) (atabl_dev s)
        (dma_channels s) (max_channel s) (tx_fifo_lock s) (worker_thread s)
        (f (regs s)) (trace s).
Definition emit (e : event) (s : state) : state :=
  State (cports s) (descs s) (sync_descs s) (dev s) (atabl_dev s)
        (dma_channels s) (max_channel s) (tx_fifo_lock s) (worker_thread s)
        (regs s) (trace s ++ [e]).

(** [sem_post(&worker.tx_fifo_lock)] *)
Definition sem_post_tx_fifo_lock (s : state) : state :=
  set_tx_fifo_lock (tx_fifo_lock s + 1) s.

(** [unipro_read] and [unipro_write] on the register at [offset]. *)
Definition unipro_read (s : state) (offset : Z) : Z := regs s offset.
Definition unipro_write (offset v : Z) (s : state) : state :=
  set_regs (λ r o, if decide (o = offset) then v else r o) s.

(** Modelled from the spec: [cport_handle] is defined in tsb_unipro.c,
    which is missing; it resolves an id to its CPort or to [NULL]. *)
Definition cport_handle (s : state) (id : Z) : option cport := cports s !! id.

Section Engine.
Context `{Platform}.

(** ** pick_dma_channel *)

(** The result is [&unipro_dma.dma_channels[chan_index]], kept as
    [chan_index].  [%] is taken on [unsigned int], the [int] operand
    [max_channel - 1] being converted. *)
Definition pick_dma_channel (s : state) (cp : cport) : res Z :=
  chan_index ←
    (if decide (cportid cp = 0) then Ret 0
     else
       let m := u32 (max_channel s - 1) in
       if decide (m = 0) then Undef
       else Ret (u32 (u32 (cportid cp - 1) `mod` m + 1)));
  _ ← DEBUGASSERT (bool_decide (chan_index < u32 (max_channel s)));
  Ret chan_index.

(** ** List helpers *)

(** Modelled from the spec: nuttx/list.h is missing.  [list_add] links a
    node before the list head, which appends it at the tail of the queue;
    [list_del] unlinks a node from the list it is on, here the [tx_fifo]
    of the descriptor's own CPort, the one list a descriptor is ever
    linked on. *)
Definition cport_set_tx_fifo (q : list Z) (c : cport) : cport :=
  Cport (cportid c) q (pending_reset c) (reset_completion_cb c)
        (reset_completion_cb_priv c) (tx_buf c).

Definition list_add (cp p : Z) (s : state) : state :=
  set_cports (alter (λ c, cport_set_tx_fifo (tx_fifo c ++ [p]) c) cp) s.

Definition list_del (cp p : Z) (s : state) : state :=
  set_cports
    (alter (λ c, cport_set_tx_fifo (filter (λ q, q ≠ p) (tx_fifo c)) c) cp) s.

Definition list_is_empty (q : list Z) : bool :=
  match q with
  | [] => true
  | _ :: _ => false
  end.

(** [free(desc)] *)
Definition free_desc (p : Z) (s : state) : state :=
  emit (EvFree p) (set_descs (delete p) s).

(** ** Completion callbacks *)

(** [unipro_send_cb(status, buf, priv)]: stores the status in the blocking
    caller's [unipro_xfer_descriptor_sync] and posts its semaphore. *)
Definition unipro_send_cb (status buf priv : Z) (s : state) : res (Z * state) :=
  if decide (priv = 0) then Ret (- EINVAL, s)
  else
    sd ← deref (sync_descs s !! priv);
    Ret (0, set_sync_descs
              (<[priv := DescSync (lock sd + 1) (Some status)]>) s).

(** [if (desc->callback) desc->callback(status, desc->data, desc->priv)].
    A user callback is opaque and assumed not to re-enter the driver. *)
Definition invoke_callback (d : unipro_xfer_descriptor) (status : Z)
    (s : state) : res state :=
  match callback d with
  | CbNull => Ret s
  | CbSendSync =>
      '(_, s') ← unipro_send_cb status (data d) (priv d)
                 (emit (EvCallback (desc_cport d) CbSendSync status
                                   (data d) (priv d)) s);
      Ret s'
  | CbUser f =>
      Ret (emit (EvCallback (desc_cport d) (CbUser f) status
                            (data d) (priv d)) s)
  end.

(** ** unipro_flush_cport *)

(** The body of [list_reverse_foreach]: [iter] is what is left of the walk
    from the tail towards the head. *)
Fixpoint flush_walk (cp : Z) (iter : list Z) (s : state) : res state :=
  match iter with
  | [] => Ret s
  | p :: iter' =>
      desc ← deref (descs s !! p);
      match channel desc with
      | None =>
          let s := list_del cp p s in
          s ← invoke_callback desc (- ECONNRESET) s;
          let s := free_desc p s in
          flush_walk cp iter' s
      | Some ci =>
          desc_chan ← deref (dma_channels s !! ci);
          let s := if decide (dma_op desc = 0) then s
                   else emit (EvDmaDequeue (ch_chan desc_chan) (dma_op desc)) s in
          flush_walk cp iter' s
      end
  end.

Definition cport_reset_done (c : cport) : cport :=
  Cport (cportid c) (tx_fifo c) false 0 0 (tx_buf c).

Definition unipro_flush_cport (cp : Z) (s : state) : res state :=
  c ← deref (cports s !! cp);
  s ← (if list_is_empty (tx_fifo c) then Ret s
       else flush_walk cp (reverse (tx_fifo c)) s);
  (* reset: *)
  c ← deref (cports s !! cp);
  let s := emit (EvResetCport (cportid c)) s in
  let s := if decide (reset_completion_cb c = 0) then s
           else emit (EvResetCompletion (reset_completion_cb c) (cportid c)
                                        (reset_completion_cb_priv c)) s in
  Ret (set_cports (alter cport_reset_done cp) s).

(** ** pick_tx_descriptor *)

(** [n] counts the iterations that remain of the [for] loop, which runs
    [cport_count] times.  When the flush has emptied a queue that was
    found non-empty, [cport->tx_fifo.next] is the list head itself and
    [containerof] does not yield a descriptor: reading its [channel]
    is undefined. *)
Fixpoint pick_tx_descriptor_loop (n : nat) (cportid : Z) (s : state)
    : res (option Z * state) :=
  match n with
  | O => Ret (None, s)
  | S n' =>
      let cportid := cportid `mod` unipro_cport_count in
      match cport_handle s cportid with
      | None => pick_tx_descriptor_loop n' (u32 (cportid + 1)) s
      | Some c =>
          if list_is_empty (tx_fifo c) then
            s ← (if pending_reset c then unipro_flush_cport cportid s
                 else Ret s);
            pick_tx_descriptor_loop n' (u32 (cportid + 1)) s
          else
            s ← (if pending_reset c then unipro_flush_cport cportid s
                 else Ret s);
            c ← deref (cports s !! cportid);
            p ← deref (head (tx_fifo c));
            desc ← deref (descs s !! p);
            match channel desc with
            | Some _ => pick_tx_descriptor_loop n' (u32 (cportid + 1)) s
            | None => Ret (Some p, s)
            end
      end
  end.

Definition pick_tx_descriptor (cportid : Z) (s : state)
    : res (option Z * state) :=
  pick_tx_descriptor_loop (Z.to_nat unipro_cport_count) cportid s.

(** ** unipro_xfer_dequeue_descriptor *)

Definition unipro_xfer_dequeue_descriptor (p : Z) (s : state) : res state :=
  desc ← deref (descs s !! p);
  Ret (free_desc p (list_del (desc_cport desc) p s)).

(** ** unipro_dma_tx_callback *)

(** What the ATABL and DMA drivers answer during one run of the handler. *)
Record tx_callback_env := TxCallbackEnv {
  (** [device_atabl_req_is_activated] in the Start block *)
  start_req_is_activated : Z;
  atabl_connect_cport_to_req : Z;
  atabl_activate_req : Z;
  (** [device_dma_op_free] in the Complete block *)
  dma_op_free : Z;
  (** [device_atabl_req_is_activated] in the Error block *)
  error_req_is_activated : Z;
  (** [device_atabl_req_is_activated] at each turn of the Recovered poll *)
  recovered_req_is_activated : nat → Z;
}.

(** How a block of the handler ends: with a [return], or by falling
    through to the next [if (event & ...)] with the current [retval]. *)
Inductive flow :=
  | Return (rc : Z)
  | Continue (retval : Z).

Definition desc_set_channel (c : option nat) (d : unipro_xfer_descriptor)
    : unipro_xfer_descriptor :=
  Desc (desc_cport d) (data d) (len d) (priv d) (callback d)
       (data_offset d) c (dma_op d).

Definition chan_set_cportid (id : Z) (c : dma_channel) : dma_channel :=
  DmaChannel (ch_chan c) (ch_req c) id (ch_saved_tx_water_mark c).

Definition chan_set_saved_tx_water_mark (w : Z) (c : dma_channel) : dma_channel :=
  DmaChannel (ch_chan c) (ch_req c) (ch_cportid c) w.

Definition tx_callback_start (env : tx_callback_env) (p : Z) (s : state)
    : res (flow * state) :=
  desc ← deref (descs s !! p);
  ci ← deref (channel desc);
  desc_chan ← deref (dma_channels s !! ci);
  cp ← deref (cports s !! desc_cport desc);
  let req_activated :=
    if decide (ch_cportid desc_chan ≠ 0xFFFF) then start_req_is_activated env
    else 0 in
  let s := if decide (req_activated ≠ 0)
           then emit (EvAtablDeactivate (ch_req desc_chan)) s else s in
  '(connected, s) ←
    (if decide (ch_cportid desc_chan ≠ cportid cp) then
       let s := if decide (ch_cportid desc_chan ≠ 0xFFFF)
                then set_dma_channels (alter (chan_set_cportid 0xffff) ci)
                       (emit (EvAtablDisconnect (ch_req desc_chan)) s)
                else s in
       let s := emit (EvAtablConnect (cportid cp) (ch_req desc_chan)) s in
       Ret (atabl_connect_cport_to_req env, s)
     else Ret (OK, s));
  if decide (connected ≠ OK) then Ret (Return connected, s)
  else
    let s := emit (EvAtablActivate (ch_req desc_chan)) s in
    let retval := atabl_activate_req env in
    if decide (retval ≠ 0) then Ret (Return retval, s)
    else Ret (Continue retval,
              set_dma_channels (alter (chan_set_cportid (cportid cp)) ci) s).

Definition tx_callback_complete (env : tx_callback_env) (op p : Z) (s : state)
    : res (flow * state) :=
  desc ← deref (descs s !! p);
  '(retval, s) ←
    (if decide (data_offset desc >= len desc) then
       cp ← deref (cports s !! desc_cport desc);
       let s := emit (EvSetEom (cportid cp)) s in
       let s := emit (EvDmaOpFree op) s in
       let retval := dma_op_free env in
       s ← invoke_callback desc 0 s;
       ci ← deref (channel desc);
       desc_chan ← deref (dma_channels s !! ci);
       let s := emit (EvAtablTransferCompleted (ch_req desc_chan)) s in
       s ← unipro_xfer_dequeue_descriptor p s;
       Ret (retval, s)
     else
       let s := set_descs (<[p := desc_set_channel None desc]>) s in
       let s := emit (EvDmaOpFree op) s in
       Ret (dma_op_free env, s));
  (* event_complete_finally: *)
  let s := sem_post_tx_fifo_lock s in
  if decide (retval ≠ 0) then Ret (Return retval, s)
  else Ret (Continue retval, s).

Definition tx_callback_error (env : tx_callback_env) (p : Z) (s : state)
    : res (flow * state) :=
  desc ← deref (descs s !! p);
  ci ← deref (channel desc);
  desc_chan ← deref (dma_channels s !! ci);
  if decide (error_req_is_activated env ≠ 0) then
    let cportid := ch_cportid desc_chan in
    let w := unipro_read s (REG_TX_BUFFER_SPACE_OFFSET_REG cportid) in
    let s := set_dma_channels (alter (chan_set_saved_tx_water_mark w) ci) s in
    let s := unipro_write (REG_TX_BUFFER_SPACE_OFFSET_REG cportid) 0 s in
    Ret (Return DEVICE_DMA_ERROR_DMA_FAILED, s)
  else Ret (Return OK, s).

(** The bounded poll of the Recovered block: the value of [count] when the
    loop is left, [n] turns remaining. *)
Fixpoint recovered_poll (is_activated : nat → Z) (n count : nat) : nat :=
  match n with
  | O => count
  | S n' =>
      if decide (is_activated count = 0) then count
      else recovered_poll is_activated n' (S count)
  end.

Definition tx_callback_recovered (env : tx_callback_env) (p : Z) (s : state)
    : res (flow * state) :=
  desc ← deref (descs s !! p);
  ci ← deref (channel desc);
  desc_chan ← deref (dma_channels s !! ci);
  let count := recovered_poll (recovered_req_is_activated env) 100 0 in
  let s := unipro_write (REG_TX_BUFFER_SPACE_OFFSET_REG (ch_cportid desc_chan))
                        (ch_saved_tx_water_mark desc_chan) s in
  let s := emit (EvAtablTransferCompleted (ch_req desc_chan)) s in
  Ret (Return OK, s).

Definition tx_callback_dequeued (op p retval : Z) (s : state)
    : res (flow * state) :=
  desc ← deref (descs s !! p);
  let s := emit (EvDmaOpFree op) s in
  s ← invoke_callback desc 0 s;
  s ← unipro_xfer_dequeue_descriptor p s;
  Ret (Continue retval, sem_post_tx_fifo_lock s).

(** [if (event & mask) { blk }], skipped once the handler has returned. *)
Definition on_event (event mask : Z) (blk : Z → state → res (flow * state))
    (fs : flow * state) : res (flow * state) :=
  match fs.1 with
  | Return rc => Ret fs
  | Continue retval =>
      if decide (Z.land event mask ≠ 0) then blk retval fs.2 else Ret fs
  end.

(** [op] is the operation the DMA driver reports, [p] the descriptor it
    passes back as [arg]. *)
Definition unipro_dma_tx_callback (env : tx_callback_env) (op event p : Z)
    (s : state) : res (Z * state) :=
  fs ← on_event event DEVICE_DMA_CALLBACK_EVENT_START
         (λ _, tx_callback_start env p) (Continue OK, s);
  fs ← on_event event DEVICE_DMA_CALLBACK_EVENT_COMPLETE
         (λ _, tx_callback_complete env op p) fs;
  fs ← on_event event DEVICE_DMA_CALLBACK_EVENT_ERROR
         (λ _, tx_callback_error env p) fs;
  fs ← on_event event DEVICE_DMA_CALLBACK_EVENT_RECOVERED
         (λ _, tx_callback_recovered env p) fs;
  fs ← on_event event DEVICE_DMA_CALLBACK_EVENT_DEQUEUED
         (tx_callback_dequeued op p) fs;
  match fs.1 with
  | Return rc => Ret (rc, fs.2)
  | Continue retval => Ret (retval, fs.2)
  end.

(** ** unipro_dma_xfer *)

(** What the DMA driver answers: the status and the operation of
    [device_dma_op_alloc], and the status of [device_dma_enqueue]. *)
Record xfer_env := XferEnv {
  dma_op_alloc : Z * Z;
  dma_enqueue : Z;
}.

Definition desc_start_xfer (ci : nat) (op offset : Z)
    (d : unipro_xfer_descriptor) : unipro_xfer_descriptor :=
  Desc (desc_cport d) (data d) (len d) (priv d) (callback d) offset (Some ci) op.

Definition xfer_callback_events : Z :=
  Z.lor (Z.lor (Z.lor (Z.lor DEVICE_DMA_CALLBACK_EVENT_COMPLETE
                             DEVICE_DMA_CALLBACK_EVENT_START)
                      DEVICE_DMA_CALLBACK_EVENT_ERROR)
               DEVICE_DMA_CALLBACK_EVENT_RECOVERED)
        DEVICE_DMA_CALLBACK_EVENT_DEQUEUED.

Definition unipro_dma_xfer (env : xfer_env) (p : Z) (ci : nat) (s : state)
    : res (Z * state) :=
  desc ← deref (descs s !! p);
  _ ← DEBUGASSERT (bool_decide (data_offset desc = 0));
  let xfer_len := len desc in
  let '(retval, op) := dma_op_alloc env in
  if decide (retval ≠ OK) then Ret (retval, s)
  else if decide (op = 0) then Undef
  else
    cp ← deref (cports s !! desc_cport desc);
    channel ← deref (dma_channels s !! ci);
    let cport_buf := tx_buf cp in
    let xfer_buf := data desc in
    (* resuming a paused xfer *)
    let cport_buf :=
      if decide (data_offset desc ≠ 0) then u32 (cport_buf + 8) else cport_buf in
    let xfer_buf :=
      if decide (data_offset desc ≠ 0) then u32 (xfer_buf + data_offset desc)
      else xfer_buf in
    let dma_op := DmaOp p xfer_callback_events 1 xfer_len xfer_buf cport_buf in
    let offset := u32 (data_offset desc + xfer_len) in
    let s := set_descs (<[p := desc_start_xfer ci op offset desc]>) s in
    let s := emit (EvDmaEnqueue (ch_chan channel) op dma_op) s in
    let retval := dma_enqueue env in
    if decide (retval ≠ 0) then
      let s := set_descs
                 (<[p := desc_set_channel None
                           (desc_start_xfer ci op offset desc)]>) s in
      Ret (retval, emit (EvDmaOpFree op) s)
    else Ret (0, s).

(** ** unipro_tx_worker *)

(** One turn of the inner [while] of the worker: [None] when
    [pick_tx_descriptor] finds nothing and the worker goes back to
    [sem_wait]; otherwise the next value of [next_cport] and the status of
    the submission. *)
Definition unipro_tx_worker_step (env : xfer_env) (next_cport : Z) (s : state)
    : res (option (Z * Z) * state) :=
  '(picked, s) ← pick_tx_descriptor next_cport s;
  match picked with
  | None => Ret (None, s)
  | Some p =>
      desc ← deref (descs s !! p);
      cp ← deref (cports s !! desc_cport desc);
      let next_cport := u32 (cportid cp + 1) in
      chan_index ← pick_dma_channel s cp;
      '(rc, s) ← unipro_dma_xfer env p (Z.to_nat chan_index) s;
      Ret (Some (next_cport, rc), s)
  end.

(** ** unipro_send_async_dma *)

(** [zalloc] is what the allocator returns: [None] for [NULL], otherwise
    the address of a zeroed block. *)
Definition unipro_send_async_dma (zalloc : option Z)
    (cportid buf len : Z) (callback : completion) (priv : Z) (s : state)
    : Z * state :=
  match cport_handle s cportid with
  | None => (- EINVAL, s)
  | Some c =>
      if pending_reset c then (- EPIPE, s)
      else
        match zalloc with
        | None => (- ENOMEM, s)
        | Some p =>
            let desc := Desc cportid buf len priv callback 0 None 0 in
            let s := set_descs (<[p := desc]>) s in
            let s := list_add cportid p s in
            (0, sem_post_tx_fifo_lock s)
        end
  end.

(** ** unipro_send_dma *)

(** The blocking send up to its [sem_wait]: [sync] is the address of the
    caller's [struct unipro_xfer_descriptor_sync].  The result is [Some]
    status when the function returns without waiting. *)
Definition unipro_send_dma_submit (zalloc : option Z) (sync : Z)
    (cportid buf len : Z) (s : state) : option Z * state :=
  let s := set_sync_descs (<[sync := DescSync 0 None]>) s in
  let '(retval, s) :=
    unipro_send_async_dma zalloc cportid buf len CbSendSync sync s in
  if decide (retval ≠ 0) then (Some retval, set_sync_descs (delete sync) s)
  else (None, s).

(** The blocking send from its [sem_wait] on: [Ret None] while the
    semaphore is not available, otherwise the status it returns. *)
Definition unipro_send_dma_wait (sync : Z) (s : state)
    : res (option (Z * state)) :=
  sd ← deref (sync_descs s !! sync);
  if decide (lock sd <= 0) then Ret None
  else
    retval ← deref (retval sd);
    Ret (Some (retval, set_sync_descs (delete sync) s)).

(** ** unipro_tx_init_dma *)

Record init_env := InitEnv {
  (** [device_open(DEVICE_TYPE_DMA_HW, 0)], [0] for [NULL] *)
  device_open_dma : Z;
  (** [device_open(DEVICE_TYPE_ATABL_HW, 0)] *)
  device_open_atabl : Z;
  device_dma_chan_free_count : Z;
  device_atabl_req_free_count : Z;
  (** status and request of the [i]-th [device_atabl_req_alloc] *)
  device_atabl_req_alloc : nat → Z * Z;
  (** channel stored by the [i]-th [device_dma_chan_alloc], [0] for [NULL] *)
  device_dma_chan_alloc : nat → Z;
  pthread_create : Z;
}.

(** Setup HW hand shake threshold. *)
Fixpoint init_thresholds (n : nat) (i : Z) (s : state) : state :=
  match n with
  | O => s
  | S n' =>
      let offset_value := unipro_read s (REG_TX_BUFFER_SPACE_OFFSET_REG i) in
      let s :=
        unipro_write (REG_TX_BUFFER_SPACE_OFFSET_REG i)
          (Z.lor offset_value
                 (Z.shiftl (if CONFIG_ARCH_UNIPROTX_DMA_WMB then 0x10 else 0x20) 8))
          s in
      init_thresholds n' (i + 1) s
  end.

Definition chan_set_req (r : Z) (c : dma_channel) : dma_channel :=
  DmaChannel (ch_chan c) r (ch_cportid c) (ch_saved_tx_water_mark c).

Definition chan_set_chan (h : Z) (c : dma_channel) : dma_channel :=
  DmaChannel h (ch_req c) (ch_cportid c) (ch_saved_tx_water_mark c).

(** The allocation loop, [n] turns remaining, at index [i]. *)
Fixpoint init_alloc_channels (env : init_env) (n i : nat) (s : state) : state :=
  match n with
  | O => s
  | S n' =>
      let '(rc, req) := device_atabl_req_alloc env i in
      if decide (rc ≠ 0) then s
      else
        let s := set_dma_channels (alter (chan_set_req req) i) s in
        let chan := device_dma_chan_alloc env i in
        let s := set_dma_channels (alter (chan_set_chan chan) i) s in
        if decide (chan = 0) then s
        else
          let s := set_dma_channels (alter (chan_set_cportid 0xFFFF) i) s in
          let s := set_max_channel (max_channel s + 1) s in
          init_alloc_channels env n' (S i) s
  end.

(** [error_worker_create:] release of the [n] channels from index [i] on. *)
Fixpoint init_free_channels (n i : nat) (s : state) : state :=
  match n with
  | O => s
  | S n' =>
      init_free_channels n' (S i) (emit (EvDmaChanFree i) (emit (EvAtablReqFree i) s))
  end.

(** [error_no_channel:] *)
Definition init_error_no_channel (s : state) : state :=
  let s := emit (EvDeviceClose (atabl_dev s)) s in
  let s := set_devs (dev s) 0 s in
  let s := emit (EvDeviceClose (dev s)) s in
  set_devs 0 (atabl_dev s) s.

(** The result is the status and whether [*table] has been set to the
    call table. *)
Definition unipro_tx_init_dma (env : init_env) (s : state)
    : res (Z * bool * state) :=
  let s := set_tx_fifo_lock 0 s in
  let s := set_devs (device_open_dma env) (atabl_dev s) s in
  if decide (dev s = 0) then Ret (- ENODEV, false, s)
  else
    let s := init_thresholds (Z.to_nat unipro_cport_count) 0 s in
    let s := set_devs (dev s) (device_open_atabl env) s in
    if decide (atabl_dev s = 0) then
      Ret (- ENODEV, false, emit (EvDeviceClose (dev s)) s)
    else
      let s := set_max_channel 0 s in
      let avail_chan := device_dma_chan_free_count env in
      let avail_chan :=
        if decide (u32 avail_chan > UNIPRO_DMA_CHANNEL_COUNT)
        then UNIPRO_DMA_CHANNEL_COUNT else avail_chan in
      _ ← DEBUGASSERT (bool_decide (avail_chan > 1));
      if decide (device_atabl_req_free_count env < avail_chan) then
        Ret (- ENODEV, false,
             emit (EvDeviceClose (atabl_dev s)) (emit (EvDeviceClose (dev s)) s))
      else
        let s := init_alloc_channels env (Z.to_nat avail_chan) 0 s in
        if decide (max_channel s <= 0) then
          Ret (- ENODEV, false, init_error_no_channel s)
        else
          let retval := pthread_create env in
          if decide (retval ≠ 0) then
            (* error_worker_create: *)
            let s := init_free_channels (Z.to_nat (max_channel s)) 0 s in
            let s := set_max_channel 0 s in
            Ret (retval, false, init_error_no_channel s)
          else
            Ret (0, true, set_worker_thread true s).

End Engine.

(** ** Vocabulary of the statements *)

(** The call a descriptor's completion makes, if it has one. *)
Definition completion_calls (d : unipro_xfer_descriptor) (status : Z)
    : list event :=
  match callback d with
  | CbNull => []
  | cb => [EvCallback (desc_cport d) cb status (data d) (priv d)]
  end.

(** What a descriptor's completion does to the blocking callers' records. *)
Definition completion_sync (d : unipro_xfer_descriptor) (status : Z)
    (m : gmap Z unipro_xfer_descriptor_sync)
    : gmap Z unipro_xfer_descriptor_sync :=
  match callback d with
  | CbSendSync =>
      if decide (priv d = 0) then m
      else alter (λ sd, DescSync (lock sd + 1) (Some status)) (priv d) m
  | _ => m
  end.

(** A descriptor submitted by the blocking adapter can be completed when
    the [unipro_xfer_descriptor_sync] its [priv] points to is still live. *)
Definition callback_ready (s : state) (d : unipro_xfer_descriptor) : Prop :=
  callback d = CbSendSync → priv d ≠ 0 → is_Some (sync_descs s !! priv d).

(** How the Complete block ends, from the status of [device_dma_op_free]. *)
Definition flow_of (retval : Z) : flow :=
  if decide (retval ≠ 0) then Return retval else Continue retval.

(** [event] has the bit [mask] set / clear, as [event & mask] tests it. *)
Definition event_has (event mask : Z) : Prop := Z.land event mask ≠ 0.
Definition event_lacks (event mask : Z) : Prop := Z.land event mask = 0.

(** ** A platform for the worked examples *)

(** Distinct bits for the five events, three CPorts, a pool of four
    channels, assertions compiled out. *)
Definition bridge : Platform := {|
  CONFIG_DEBUG := false;
  CONFIG_ARCH_UNIPROTX_DMA_WMB := false;
  UNIPRO_DMA_CHANNEL_COUNT := 4;
  DEVICE_DMA_CALLBACK_EVENT_START := 1;
  DEVICE_DMA_CALLBACK_EVENT_COMPLETE := 2;
  DEVICE_DMA_CALLBACK_EVENT_ERROR := 4;
  DEVICE_DMA_CALLBACK_EVENT_RECOVERED := 8;
  DEVICE_DMA_CALLBACK_EVENT_DEQUEUED := 16;
  DEVICE_DMA_ERROR_DMA_FAILED := 5;
  REG_TX_BUFFER_SPACE_OFFSET_REG := λ c, 0x400 + 4 * c;
  unipro_cport_count := 3;
|}.

(** The same platform with [DEBUGASSERT] compiled in. *)
Definition bridge_debug : Platform := {|
  CONFIG_DEBUG := true;
  CONFIG_ARCH_UNIPROTX_DMA_WMB := false;
  UNIPRO_DMA_CHANNEL_COUNT := 4;
  DEVICE_DMA_CALLBACK_EVENT_START := 1;
  DEVICE_DMA_CALLBACK_EVENT_COMPLETE := 2;
  DEVICE_DMA_CALLBACK_EVENT_ERROR := 4;
  DEVICE_DMA_CALLBACK_EVENT_RECOVERED := 8;
  DEVICE_DMA_CALLBACK_EVENT_DEQUEUED := 16;
  DEVICE_DMA_ERROR_DMA_FAILED := 5;
  REG_TX_BUFFER_SPACE_OFFSET_REG := λ c, 0x400 + 4 * c;
  unipro_cport_count := 3;
|}.

Definition idle_cport (id : Z) : cport :=
  Cport id [] false 0 0 (0x1000 * (id + 1)).

Definition idle_channel (i : Z) : dma_channel :=
  DmaChannel (0x10 + i) (0x20 + i) 0xFFFF 0.

(** Three idle CPorts and three allocated channels. *)
Definition idle_state : state :=
  State (list_to_map [(0, idle_cport 0); (1, idle_cport 1); (2, idle_cport 2)])
        ∅ ∅ 1 2
        [idle_channel 0; idle_channel 1; idle_channel 2; DmaChannel 0 0 0 0]
        3 0 true (λ _, 0x30) [].

(** CPort 1 after one [unipro_send_async_dma] of 64 bytes. *)
Definition queued_state : state :=
  (unipro_send_async_dma (Some 0x5000) 1 0x9000 64 (CbUser 0x700) 0x42
     idle_state).2.

(** The state after one turn of the worker started at CPort 0. *)
Definition after_worker_step (P : Platform) (env : xfer_env) (s : state)
    : state :=
  match unipro_tx_worker_step (H := P) env 0 s with
  | Ret (_, s') => s'
  | _ => s
  end.

(** The queued descriptor submitted on channel 1 as operation [0x77]. *)
Definition busy_state : state :=
  after_worker_step bridge (XferEnv (OK, 0x77) 0) queued_state.

Definition busy_desc : unipro_xfer_descriptor :=
  Desc 1 0x9000 64 0x42 (CbUser 0x700) 64 (Some 1%nat) 0x77.

(** The same descriptor, had only half of it been submitted. *)
Definition half_desc : unipro_xfer_descriptor :=
  Desc 1 0x9000 64 0x42 (CbUser 0x700) 32 (Some 1%nat) 0x77.

Definition half_state : state :=
  set_descs (<[0x5000 := half_desc]>) busy_state.

(** A blocking send of 128 bytes on CPort 1, submitted on channel 1. *)
Definition blocked_state : state :=
  after_worker_step bridge (XferEnv (OK, 0x77) 0)
    (unipro_send_dma_submit (Some 0x5000) 0x8000 1 0x9000 128 idle_state).2.

Definition blocked_desc : unipro_xfer_descriptor :=
  Desc 1 0x9000 128 0x8000 CbSendSync 128 (Some 1%nat) 0x77.

(** Answers of the drivers in which every call succeeds and the ATABL
    request is reported active, resp. inactive. *)
Definition env_active : tx_callback_env := TxCallbackEnv 1 0 0 0 1 (λ _, 1).
Definition env_inactive : tx_callback_env := TxCallbackEnv 0 0 0 0 0 (λ _, 0).

(** ** Vocabulary of the flush *)

(** The descriptor at [p] is allocated and not bound to a channel. *)
Definition unbound_in (m : gmap Z unipro_xfer_descriptor) (p : Z) : Prop :=
  channel <$> m !! p = Some None.

#[global] Instance unbound_in_dec m p : Decision (unbound_in m p).
Proof. unfold unbound_in. apply _. Defined.




(** ** The reset request *)

(** Modelled from the spec: the reset of a CPort is requested in
    tsb_unipro.c, which is missing; for this file it raises
    [pending_reset] and records the completion to call, then calls
    [unipro_reset_notify_dma]. *)
Definition cport_request_reset (cb priv : Z) (c : cport) : cport :=
  Cport (cportid c) (tx_fifo c) true cb priv (tx_buf c).

(** [unipro_reset_notify_dma] *)
Definition unipro_reset_notify_dma (cportid : Z) (s : state) : state :=
  sem_post_tx_fifo_lock s.

Definition request_reset (cp cb priv : Z) (s : state) : state :=
  unipro_reset_notify_dma cp (set_cports (alter (cport_request_reset cb priv) cp) s).

(** ** Vocabulary of the scan *)

(** [pick_tx_descriptor] passes over CPort [id]: there is no such CPort,
    or it has no reset pending and its queue is empty or headed by a
    descriptor that is on a channel. *)
Definition scan_skips (s : state) (id : Z) : Prop :=
  match cports s !! id with
  | None => True
  | Some c =>
      pending_reset c = false
      ∧ (tx_fifo c = []
         ∨ ∃ p d ci, head (tx_fifo c) = Some p ∧ descs s !! p = Some d
                     ∧ channel d = Some ci)
  end.

(** [pick_tx_descriptor] stops at CPort [id] with the descriptor at [p]:
    no reset is pending and [p] heads the queue and waits for a channel. *)
Definition scan_picks (s : state) (id p : Z) : Prop :=
  ∃ c, cports s !! id = Some c
       ∧ pending_reset c = false
       ∧ head (tx_fifo c) = Some p
       ∧ unbound_in (descs s) p.


(** ** Vocabulary of the initialisation *)

Section InitVocabulary.
Context `{Platform}.

(** [avail_chan] once it has been clamped to the size of the pool. *)
Definition init_avail_chan (env : init_env) : Z :=
  if decide (u32 (device_dma_chan_free_count env) > UNIPRO_DMA_CHANNEL_COUNT)
  then UNIPRO_DMA_CHANNEL_COUNT else device_dma_chan_free_count env.

(** The state of [unipro_tx_init_dma] when both devices are open, before
    the allocation loop. *)
Definition init_opened (env : init_env) (s : state) : state :=
  set_max_channel 0
    (set_devs (device_open_dma env) (device_open_atabl env)
       (init_thresholds (Z.to_nat unipro_cport_count) 0
          (set_devs (device_open_dma env) (atabl_dev s)
             (set_tx_fifo_lock 0 s)))).

(** The bits the initialisation sets in each watermark register. *)
Definition init_threshold_bits : Z :=
  Z.shiftl (if CONFIG_ARCH_UNIPROTX_DMA_WMB then 0x10 else 0x20) 8.


End InitVocabulary.

(** ** The queues as a whole *)

(** What ties the CPort table to the descriptors: every node of a queue is
    an allocated descriptor of that CPort, no node is linked twice, every
    allocated descriptor is linked on the queue of its CPort, and a
    descriptor that is on a channel is the head of its queue. *)
Record queues_inv (cps : gmap Z cport)
    (ds : gmap Z unipro_xfer_descriptor) : Prop := QueuesInv {
  inv_queued : ∀ cp c p,
    cps !! cp = Some c → p ∈ tx_fifo c →
    ∃ d, ds !! p = Some d ∧ desc_cport d = cp;
  inv_nodup : ∀ cp c, cps !! cp = Some c → NoDup (tx_fifo c);
  inv_linked : ∀ p d,
    ds !! p = Some d → ∃ c, cps !! desc_cport d = Some c ∧ p ∈ tx_fifo c;
  inv_head : ∀ cp c p d,
    cps !! cp = Some c → p ∈ tx_fifo c → ds !! p = Some d →
    is_Some (channel d) → head (tx_fifo c) = Some p;
}.

Definition engine_inv (s : state) : Prop := queues_inv (cports s) (descs s).

(** The entry points of the driver and the events of its environment.
    The allocator hands out blocks that are not in use. *)
Inductive engine_step `{Platform} : state → state → Prop :=
  | step_send_async zalloc id buf l cb pr s rc s' :
      (∀ p, zalloc = Some p → descs s !! p = None) →
      unipro_send_async_dma zalloc id buf l cb pr s = (rc, s') →
      engine_step s s'
  | step_send_submit zalloc sync id buf l s r s' :
      (∀ p, zalloc = Some p → descs s !! p = None) →
      unipro_send_dma_submit zalloc sync id buf l s = (r, s') →
      engine_step s s'
  | step_send_wait sync s rc s' :
      unipro_send_dma_wait sync s = Ret (Some (rc, s')) →
      engine_step s s'
  | step_reset cp cb priv s :
      engine_step s (request_reset cp cb priv s)
  | step_worker env next s r s' :
      unipro_tx_worker_step env next s = Ret (r, s') →
      engine_step s s'
  | step_event env op event p s rc s' :
      unipro_dma_tx_callback env op event p s = Ret (rc, s') →
      engine_step s s'
  | step_init env s rc tbl s' :
      unipro_tx_init_dma env s = Ret (rc, tbl, s') →
      engine_step s s'.

(** ** More states for the worked examples *)

(** An ATABL driver that refuses to connect a request. *)
Definition env_connect_fails : tx_callback_env :=
  TxCallbackEnv 0 5 0 0 0 (λ _, 0).

(** [busy_state] after a second send on CPort 1: the first descriptor is
    on channel 1, the second waits behind it. *)
Definition two_queued_state : state :=
  (unipro_send_async_dma (Some 0x6000) 1 0xA000 32 (CbUser 0x700) 0x43
     busy_state).2.


(** The driver before [unipro_tx_init_dma]. *)
Definition boot_state : state :=
  State (list_to_map [(0, idle_cport 0); (1, idle_cport 1); (2, idle_cport 2)])
        ∅ ∅ 0 0 (replicate 4 (DmaChannel 0 0 0 0)) 0 0 false (λ _, 0x30) [].

(** Drivers that give three channels and start the worker, resp. fail to
    start it. *)
Definition env_three_channels : init_env :=
  InitEnv 1 2 3 8 (λ i, (0, 0x20 + Z.of_nat i)) (λ i, 0x10 + Z.of_nat i) 0.

Definition env_no_thread : init_env :=
  InitEnv 1 2 3 8 (λ i, (0, 0x20 + Z.of_nat i)) (λ i, 0x10 + Z.of_nat i) 11.

Definition after_init (P : Platform) (env : init_env) (s : state) : state :=
  match unipro_tx_init_dma (H := P) env s with
  | Ret (_, _, s') => s'
  | _ => s
  end.

(** * Properties *)

Section Basics.
Context `{Platform}.

Lemma u32_small x : 0 ≤ x < 2 ^ 32 → u32 x = x.
Proof. intros Hx. unfold u32. by apply Z.mod_small. Qed.

Lemma DEBUGASSERT_true b : b = true → DEBUGASSERT b = Ret ().
Proof. intros ->. unfold DEBUGASSERT. by rewrite andb_false_r. Qed.

Lemma DEBUGASSERT_release b : CONFIG_DEBUG = false → DEBUGASSERT b = Ret ().
Proof. intros Hd. unfold DEBUGASSERT. by rewrite Hd. Qed.

Lemma DEBUGASSERT_false : CONFIG_DEBUG = true → DEBUGASSERT false = Panic.
Proof. intros Hd. unfold DEBUGASSERT. by rewrite Hd. Qed.

Lemma alter_as_insert {A} (f : A → A) (m : gmap Z A) k x :
  m !! k = Some x → alter f k m = <[k := f x]> m.
Proof.
  intros Hk. apply map_eq. intros j. destruct (decide (k = j)) as [<-|Hne].
  - by rewrite lookup_alter_eq, lookup_insert_eq, Hk.
  - by rewrite lookup_alter_ne, lookup_insert_ne.
Qed.

Lemma list_alter_as_insert {A} (f : A → A) (l : list A) i x :
  l !! i = Some x → alter f i l = <[i := f x]> l.
Proof.
  revert i. induction l as [|y l IH]; intros [|i] Hi; try done.
  - by injection Hi as ->.
  - simpl in *. f_equal. by apply IH.
Qed.

(** What a completion call does to the state. *)
Lemma invoke_callback_spec d status s :
  callback_ready s d →
  ∃ s', invoke_callback d status s = Ret s'
        ∧ trace s' = trace s ++ completion_calls d status
        ∧ sync_descs s' = completion_sync d status (sync_descs s)
        ∧ cports s' = cports s ∧ descs s' = descs s
        ∧ dma_channels s' = dma_channels s ∧ regs s' = regs s
        ∧ tx_fifo_lock s' = tx_fifo_lock s ∧ max_channel s' = max_channel s.
Proof.
  intros Hr.
  unfold invoke_callback, completion_calls, completion_sync, callback_ready in *.
  destruct (callback d) eqn:Hcb.
  - exists s. rewrite app_nil_r. by repeat split.
  - unfold unipro_send_cb. destruct (decide (priv d = 0)) as [Hz|Hnz]; simpl.
    + eexists. split; [done|]. by repeat split.
    + destruct (Hr eq_refl Hnz) as [sd Hsd]. rewrite Hsd. simpl.
      eexists. split; [done|]. simpl. repeat split; try done.
      by rewrite (alter_as_insert _ _ _ _ Hsd).
  - eexists. split; [done|]. by repeat split.
Qed.


End Basics.

(** ** The channel picker *)

Section PickChannel.
Context `{Platform}.

(** C2. With at least two channels allocated, [pick_dma_channel] returns
    channel 0 for CPort 0 and channel ((id - 1) mod (max_channel - 1)) + 1
    for any other CPort id; channel 0 is returned for CPort 0 only, and the
    index is below [max_channel]. *)
Theorem pick_dma_channel_spec (s : state) (cp : cport) :
  2 ≤ max_channel s < 2 ^ 31 →
  0 ≤ cportid cp < 2 ^ 32 →
  ∃ i, pick_dma_channel s cp = Ret i
       ∧ (cportid cp = 0 → i = 0)
       ∧ (cportid cp ≠ 0 → i = (cportid cp - 1) `mod` (max_channel s - 1) + 1)
       ∧ (i = 0 → cportid cp = 0)
       ∧ 0 ≤ i < max_channel s.
Proof.
  intros Hm Hc. unfold pick_dma_channel.
  assert (Hm1 : u32 (max_channel s - 1) = max_channel s - 1)
    by (apply u32_small; lia).
  assert (Hmm : u32 (max_channel s) = max_channel s) by (apply u32_small; lia).
  destruct (decide (cportid cp = 0)) as [Hz|Hnz]; simpl.
  - rewrite DEBUGASSERT_true; [|apply bool_decide_eq_true; lia].
    simpl. exists 0. repeat split; try done; lia.
  - rewrite Hm1. destruct (decide (max_channel s - 1 = 0)) as [?|_]; [lia|].
    simpl. rewrite (u32_small (cportid cp - 1)) by lia.
    pose proof (Z.mod_pos_bound (cportid cp - 1) (max_channel s - 1)
                  ltac:(lia)) as Hb.
    rewrite u32_small by lia.
    rewrite DEBUGASSERT_true; [|apply bool_decide_eq_true; lia].
    simpl. eexists. repeat split; try done; lia.
Qed.

End PickChannel.

Lemma pick_dma_channel_spec_witness :
  ∃ i, pick_dma_channel (H := bridge_debug) idle_state (idle_cport 5) = Ret i
       ∧ (cportid (idle_cport 5) = 0 → i = 0)
       ∧ (cportid (idle_cport 5) ≠ 0 →
          i = (cportid (idle_cport 5) - 1) `mod` (max_channel idle_state - 1) + 1)
       ∧ (i = 0 → cportid (idle_cport 5) = 0)
       ∧ 0 ≤ i < max_channel idle_state.
Proof.
  apply (pick_dma_channel_spec (H := bridge_debug) idle_state (idle_cport 5));
    simpl; lia.
Defined.

(** ** The asynchronous send *)

(** C8. [unipro_send_async_dma] returns [-EINVAL] for an id that does not
    resolve, [-EPIPE] for a CPort with a pending reset and [-ENOMEM] when
    the allocation fails, each time leaving the whole state (queues,
    descriptors, trace of calls) as it was; otherwise it returns 0 and the
    one new descriptor is the last of the CPort's queue. *)
Theorem unipro_send_async_dma_spec zalloc id buf l cb pr s :
  (cport_handle s id = None →
   unipro_send_async_dma zalloc id buf l cb pr s = (- EINVAL, s))
  ∧ (∀ c, cport_handle s id = Some c → pending_reset c = true →
     unipro_send_async_dma zalloc id buf l cb pr s = (- EPIPE, s))
  ∧ (∀ c, cport_handle s id = Some c → pending_reset c = false →
     zalloc = None →
     unipro_send_async_dma zalloc id buf l cb pr s = (- ENOMEM, s))
  ∧ (∀ c p, cport_handle s id = Some c → pending_reset c = false →
     zalloc = Some p →
     ∃ s', unipro_send_async_dma zalloc id buf l cb pr s = (0, s')
           ∧ cports s' = <[id := cport_set_tx_fifo (tx_fifo c ++ [p]) c]> (cports s)
           ∧ descs s' = <[p := Desc id buf l pr cb 0 None 0]> (descs s)
           ∧ trace s' = trace s
           ∧ sync_descs s' = sync_descs s
           ∧ dma_channels s' = dma_channels s
           ∧ tx_fifo_lock s' = tx_fifo_lock s + 1).
Proof.
  unfold unipro_send_async_dma. repeat split.
  - by intros ->.
  - intros c Hc Hp. rewrite Hc. simpl. by rewrite Hp.
  - intros c Hc Hp ->. rewrite Hc. simpl. by rewrite Hp.
  - intros c p Hc Hp ->. rewrite Hc. simpl. rewrite Hp. eexists. split; [done|]. simpl.
    unfold cport_handle in Hc. rewrite (alter_as_insert _ _ _ _ Hc).
    by repeat split.
Qed.

Lemma unipro_send_async_dma_spec_witness :
  unipro_send_async_dma (Some 0x5000) 7 0x9000 64 (CbUser 1) 0 idle_state
    = (- EINVAL, idle_state)
  ∧ ∃ s', unipro_send_async_dma (Some 0x5000) 1 0x9000 64 (CbUser 1) 0 idle_state
            = (0, s')
          ∧ tx_fifo <$> cports s' !! 1 = Some [0x5000].
Proof.
  destruct (unipro_send_async_dma_spec (Some 0x5000) 7 0x9000 64 (CbUser 1) 0
              idle_state) as (Hinval & _).
  destruct (unipro_send_async_dma_spec (Some 0x5000) 1 0x9000 64 (CbUser 1) 0
              idle_state) as (_ & _ & _ & Hok).
  split; [apply Hinval; reflexivity|].
  destruct (Hok (idle_cport 1) 0x5000 eq_refl eq_refl eq_refl)
    as (s' & Hs' & Hcp & _).
  exists s'. split; [exact Hs'|]. rewrite Hcp. reflexivity.
Defined.

(** ** The DMA event handler *)

Section Handler.
Context `{Platform}.

Lemma on_event_skip event mask blk r s :
  event_lacks event mask →
  on_event event mask blk (Continue r, s) = Ret (Continue r, s).
Proof.
  intros Hl. unfold on_event, event_lacks in *. simpl.
  by destruct (decide (Z.land event mask ≠ 0)).
Qed.

Lemma on_event_take event mask blk r s :
  event_has event mask →
  on_event event mask blk (Continue r, s) = blk r s.
Proof.
  intros Hh. unfold on_event, event_has in *. simpl.
  by destruct (decide (Z.land event mask ≠ 0)).
Qed.

Lemma on_event_returned event mask blk rc s :
  on_event event mask blk (Return rc, s) = Ret (Return rc, s).
Proof. done. Qed.

Lemma tx_callback_complete_full env op p s d c ci ch :
  descs s !! p = Some d →
  data_offset d >= len d →
  cports s !! desc_cport d = Some c →
  channel d = Some ci →
  dma_channels s !! ci = Some ch →
  callback_ready s d →
  ∃ s', tx_callback_complete env op p s = Ret (flow_of (dma_op_free env), s')
        ∧ trace s' = trace s ++ [EvSetEom (cportid c); EvDmaOpFree op]
                       ++ completion_calls d 0
                       ++ [EvAtablTransferCompleted (ch_req ch); EvFree p]
        ∧ descs s' = delete p (descs s)
        ∧ cports s'
          = <[desc_cport d :=
                cport_set_tx_fifo (filter (λ q, q ≠ p) (tx_fifo c)) c]> (cports s)
        ∧ sync_descs s' = completion_sync d 0 (sync_descs s)
        ∧ tx_fifo_lock s' = tx_fifo_lock s + 1
        ∧ dma_channels s' = dma_channels s
        ∧ regs s' = regs s.
Proof.
  intros Hd Hfull Hc Hch Hci Hr. unfold tx_callback_complete.
  rewrite Hd. simpl. destruct (decide (data_offset d >= len d)); [|done].
  rewrite Hc. simpl.
  destruct (invoke_callback_spec d 0
              (emit (EvDmaOpFree op) (emit (EvSetEom (cportid c)) s)))
    as (s1 & -> & Htr & Hsy & Hcp & Hds & Hdc & Hrg & Hlk & Hmx); [done|].
  simpl. rewrite Hch. simpl. rewrite Hdc. simpl. rewrite Hci. simpl.
  unfold unipro_xfer_dequeue_descriptor. simpl. rewrite Hds. simpl.
  rewrite Hd. simpl. unfold flow_of.
  destruct (decide (dma_op_free env ≠ 0)); (eexists; split; [done|]); simpl;
    rewrite Htr, Hds, Hcp, Hsy, Hlk, Hdc, Hrg; simpl;
    rewrite (alter_as_insert _ _ _ _ Hc), <- !app_assoc; by repeat split.
Qed.

Lemma tx_callback_complete_partial env op p s d :
  descs s !! p = Some d →
  data_offset d < len d →
  ∃ s', tx_callback_complete env op p s = Ret (flow_of (dma_op_free env), s')
        ∧ trace s' = trace s ++ [EvDmaOpFree op]
        ∧ descs s' = <[p := desc_set_channel None d]> (descs s)
        ∧ cports s' = cports s
        ∧ sync_descs s' = sync_descs s
        ∧ tx_fifo_lock s' = tx_fifo_lock s + 1
        ∧ dma_channels s' = dma_channels s
        ∧ regs s' = regs s.
Proof.
  intros Hd Hpart. unfold tx_callback_complete. rewrite Hd. simpl.
  destruct (decide (data_offset d >= len d)); [lia|]. simpl. unfold flow_of.
  destruct (decide (dma_op_free env ≠ 0)); (eexists; split; [done|]);
    by repeat split.
Qed.

(** The handler run on a Complete event alone. *)
Lemma tx_callback_complete_only env op event p s fl s' :
  event_lacks event DEVICE_DMA_CALLBACK_EVENT_START →
  event_has event DEVICE_DMA_CALLBACK_EVENT_COMPLETE →
  event_lacks event DEVICE_DMA_CALLBACK_EVENT_ERROR →
  event_lacks event DEVICE_DMA_CALLBACK_EVENT_RECOVERED →
  event_lacks event DEVICE_DMA_CALLBACK_EVENT_DEQUEUED →
  tx_callback_complete env op p s = Ret (flow_of fl, s') →
  unipro_dma_tx_callback env op event p s = Ret (fl, s').
Proof.
  intros Hs Hc He Hr Hq Hblk. unfold unipro_dma_tx_callback.
  rewrite on_event_skip by done. simpl.
  rewrite on_event_take by done. rewrite Hblk. simpl. unfold flow_of.
  destruct (decide (fl ≠ 0)).
  - by rewrite !on_event_returned.
  - rewrite on_event_skip by done. simpl.
    rewrite on_event_skip by done. simpl.
    by rewrite on_event_skip by done.
Qed.

(** C4. On a Complete event alone: when the descriptor's offset has reached
    its length, the handler sets the end-of-message flag, frees the DMA
    operation, calls the completion once with status 0, reports the transfer
    complete to the ATABL, unlinks and frees the descriptor; otherwise it
    clears the descriptor's channel and frees the DMA operation only, the
    descriptor staying queued.  Either way, and whatever
    [device_dma_op_free] returns, [tx_fifo_lock] is posted once. *)
Theorem complete_event_spec env op event p s d :
  event_lacks event DEVICE_DMA_CALLBACK_EVENT_START →
  event_has event DEVICE_DMA_CALLBACK_EVENT_COMPLETE →
  event_lacks event DEVICE_DMA_CALLBACK_EVENT_ERROR →
  event_lacks event DEVICE_DMA_CALLBACK_EVENT_RECOVERED →
  event_lacks event DEVICE_DMA_CALLBACK_EVENT_DEQUEUED →
  descs s !! p = Some d →
  (∀ c ci ch,
     data_offset d >= len d →
     cports s !! desc_cport d = Some c →
     channel d = Some ci →
     dma_channels s !! ci = Some ch →
     callback_ready s d →
     ∃ s', unipro_dma_tx_callback env op event p s = Ret (dma_op_free env, s')
           ∧ trace s' = trace s ++ [EvSetEom (cportid c); EvDmaOpFree op]
                          ++ completion_calls d 0
                          ++ [EvAtablTransferCompleted (ch_req ch); EvFree p]
           ∧ descs s' = delete p (descs s)
           ∧ cports s'
             = <[desc_cport d :=
                   cport_set_tx_fifo (filter (λ q, q ≠ p) (tx_fifo c)) c]>
                 (cports s)
           ∧ tx_fifo_lock s' = tx_fifo_lock s + 1)
  ∧ (data_offset d < len d →
     ∃ s', unipro_dma_tx_callback env op event p s = Ret (dma_op_free env, s')
           ∧ trace s' = trace s ++ [EvDmaOpFree op]
           ∧ descs s' = <[p := desc_set_channel None d]> (descs s)
           ∧ cports s' = cports s
           ∧ tx_fifo_lock s' = tx_fifo_lock s + 1).
Proof.
  intros Hs Hc He Hr Hq Hd. split.
  - intros c ci ch Hfull Hcp Hch Hci Hrdy.
    destruct (tx_callback_complete_full env op p s d c ci ch)
      as (s' & Hblk & Htr & Hds & Hcps & _ & Hlk & _); try done.
    exists s'. split; [by apply tx_callback_complete_only|]. by repeat split.
  - intros Hpart.
    destruct (tx_callback_complete_partial env op p s d)
      as (s' & Hblk & Htr & Hds & Hcps & _ & Hlk & _); try done.
    exists s'. split; [by apply tx_callback_complete_only|]. by repeat split.
Qed.

Lemma tx_callback_error_active env p s d ci ch :
  descs s !! p = Some d →
  channel d = Some ci →
  dma_channels s !! ci = Some ch →
  error_req_is_activated env ≠ 0 →
  tx_callback_error env p s
  = Ret (Return DEVICE_DMA_ERROR_DMA_FAILED,
         unipro_write (REG_TX_BUFFER_SPACE_OFFSET_REG (ch_cportid ch)) 0
           (set_dma_channels
              (<[ci := chan_set_saved_tx_water_mark
                         (regs s (REG_TX_BUFFER_SPACE_OFFSET_REG (ch_cportid ch)))
                         ch]>) s)).
Proof.
  intros Hd Hch Hci Hact. unfold tx_callback_error.
  rewrite Hd. simpl. rewrite Hch. simpl. rewrite Hci. simpl.
  destruct (decide (error_req_is_activated env ≠ 0)); [|done].
  do 3 f_equal. unfold set_dma_channels, unipro_read. f_equal.
  apply (list_alter_as_insert _ _ _ _ Hci).
Qed.

Lemma tx_callback_recovered_spec env p s d ci ch :
  descs s !! p = Some d →
  channel d = Some ci →
  dma_channels s !! ci = Some ch →
  tx_callback_recovered env p s
  = Ret (Return OK,
         emit (EvAtablTransferCompleted (ch_req ch))
           (unipro_write (REG_TX_BUFFER_SPACE_OFFSET_REG (ch_cportid ch))
              (ch_saved_tx_water_mark ch) s)).
Proof.
  intros Hd Hch Hci. unfold tx_callback_recovered.
  rewrite Hd. simpl. rewrite Hch. simpl. by rewrite Hci.
Qed.

(** C6. An Error event with the request active saves the watermark
    register of the channel's CPort in the channel and writes 0 to the
    register; a Recovered event that finds the channel as the Error event
    left it writes the saved value back, so the register holds its value
    from before the error and no other register changes.  Neither event
    completes a blocking send: it is still waiting after them, and
    returns 0 once the Complete event arrives. *)
Theorem error_then_recovered_restores_watermark
    env_e env_r env_c op ev_e ev_r ev_c p s d ci ch :
  event_lacks ev_e DEVICE_DMA_CALLBACK_EVENT_START →
  event_lacks ev_e DEVICE_DMA_CALLBACK_EVENT_COMPLETE →
  event_has ev_e DEVICE_DMA_CALLBACK_EVENT_ERROR →
  event_lacks ev_r DEVICE_DMA_CALLBACK_EVENT_START →
  event_lacks ev_r DEVICE_DMA_CALLBACK_EVENT_COMPLETE →
  event_lacks ev_r DEVICE_DMA_CALLBACK_EVENT_ERROR →
  event_has ev_r DEVICE_DMA_CALLBACK_EVENT_RECOVERED →
  descs s !! p = Some d →
  channel d = Some ci →
  dma_channels s !! ci = Some ch →
  error_req_is_activated env_e ≠ 0 →
  ∃ s1 ch1,
    unipro_dma_tx_callback env_e op ev_e p s
      = Ret (DEVICE_DMA_ERROR_DMA_FAILED, s1)
    ∧ dma_channels s1 !! ci = Some ch1
    ∧ ch_saved_tx_water_mark ch1
      = regs s (REG_TX_BUFFER_SPACE_OFFSET_REG (ch_cportid ch))
    ∧ ch_cportid ch1 = ch_cportid ch
    ∧ regs s1 (REG_TX_BUFFER_SPACE_OFFSET_REG (ch_cportid ch)) = 0
    ∧ (∀ t d',
         descs t !! p = Some d' →
         channel d' = Some ci →
         dma_channels t !! ci = Some ch1 →
         ∃ s2,
           unipro_dma_tx_callback env_r op ev_r p t = Ret (OK, s2)
           ∧ regs s2 (REG_TX_BUFFER_SPACE_OFFSET_REG (ch_cportid ch))
             = regs s (REG_TX_BUFFER_SPACE_OFFSET_REG (ch_cportid ch))
           ∧ (∀ r, r ≠ REG_TX_BUFFER_SPACE_OFFSET_REG (ch_cportid ch) →
                   regs s2 r = regs t r)
           ∧ descs s2 = descs t ∧ cports s2 = cports t
           ∧ sync_descs s2 = sync_descs t
           ∧ dma_channels s2 = dma_channels t
           ∧ tx_fifo_lock s2 = tx_fifo_lock t
           ∧ trace s2 = trace t ++ [EvAtablTransferCompleted (ch_req ch)])
    ∧ (∀ c sd,
         callback d = CbSendSync →
         priv d ≠ 0 →
         sync_descs s !! priv d = Some sd →
         lock sd = 0 →
         cports s !! desc_cport d = Some c →
         data_offset d >= len d →
         event_lacks ev_c DEVICE_DMA_CALLBACK_EVENT_START →
         event_has ev_c DEVICE_DMA_CALLBACK_EVENT_COMPLETE →
         event_lacks ev_c DEVICE_DMA_CALLBACK_EVENT_ERROR →
         event_lacks ev_c DEVICE_DMA_CALLBACK_EVENT_RECOVERED →
         event_lacks ev_c DEVICE_DMA_CALLBACK_EVENT_DEQUEUED →
         ∃ s2 s3 s4,
           unipro_dma_tx_callback env_r op ev_r p s1 = Ret (OK, s2)
           ∧ unipro_send_dma_wait (priv d) s2 = Ret None
           ∧ unipro_dma_tx_callback env_c op ev_c p s2
             = Ret (dma_op_free env_c, s3)
           ∧ unipro_send_dma_wait (priv d) s3 = Ret (Some (0, s4))).
Proof.
  intros Hes Hec Hee Hrs Hrc Hre Hrr Hd Hch Hci Hact.
  set (reg := REG_TX_BUFFER_SPACE_OFFSET_REG (ch_cportid ch)).
  set (ch1 := chan_set_saved_tx_water_mark (regs s reg) ch).
  set (s1 := unipro_write reg 0 (set_dma_channels (<[ci := ch1]>) s)).
  assert (Herr : unipro_dma_tx_callback env_e op ev_e p s
                 = Ret (DEVICE_DMA_ERROR_DMA_FAILED, s1)).
  { unfold unipro_dma_tx_callback.
    rewrite on_event_skip by done. simpl.
    rewrite on_event_skip by done. simpl.
    rewrite on_event_take by done.
    by rewrite (tx_callback_error_active env_e p s d ci ch). }
  assert (Hci1 : dma_channels s1 !! ci = Some ch1).
  { simpl. apply list_lookup_insert_eq. by eapply lookup_lt_Some. }
  assert (Hrec : ∀ t d', descs t !! p = Some d' → channel d' = Some ci →
            dma_channels t !! ci = Some ch1 →
            unipro_dma_tx_callback env_r op ev_r p t
            = Ret (OK, emit (EvAtablTransferCompleted (ch_req ch))
                         (unipro_write reg (regs s reg) t))).
  { intros t d' Hd' Hch' Hci'. unfold unipro_dma_tx_callback.
    rewrite on_event_skip by done. simpl.
    rewrite on_event_skip by done. simpl.
    rewrite on_event_skip by done. simpl.
    rewrite on_event_take by done.
    by rewrite (tx_callback_recovered_spec env_r p t d' ci ch1). }
  exists s1, ch1. split; [done|]. split; [done|]. split; [done|].
  split; [done|]. split.
  { simpl. by destruct (decide (reg = reg)). }
  split.
  - intros t d' Hd' Hch' Hci'. eexists. split; [by eapply Hrec|]. simpl.
    repeat split; try done.
    + by destruct (decide (reg = reg)).
    + intros r Hr. by destruct (decide (r = reg)).
  - intros c sd Hcb Hpr Hsd Hlk Hc Hfull Hcs Hcc Hce Hcr Hcq.
    set (s2 := emit (EvAtablTransferCompleted (ch_req ch))
                 (unipro_write reg (regs s reg) s1)).
    destruct (tx_callback_complete_full env_c op p s2 d c ci ch1)
      as (s3 & Hblk & _ & _ & _ & Hsy & _); try done.
    { intros _ _. simpl. by exists sd. }
    exists s2, s3.
    assert (Hsd3 : sync_descs s3 !! priv d = Some (DescSync 1 (Some 0))).
    { rewrite Hsy. unfold completion_sync. rewrite Hcb.
      destruct (decide (priv d = 0)); [done|]. simpl.
      rewrite lookup_alter_eq, Hsd. simpl. by rewrite Hlk. }
    eexists. split; [by eapply Hrec|]. split.
    { unfold unipro_send_dma_wait. simpl. rewrite Hsd. simpl.
      destruct (decide (lock sd <= 0)); [done|lia]. }
    split; [by apply tx_callback_complete_only|].
    unfold unipro_send_dma_wait. rewrite Hsd3. by simpl.
Qed.
(** C10. An Error event with the request active changes the channel's
    saved watermark and the watermark register and nothing else, and
    returns [DEVICE_DMA_ERROR_DMA_FAILED]: no call leaves the driver (no
    completion, nothing freed), descriptors and queues are as before and
    [tx_fifo_lock] is not posted.  With the request inactive the state is
    unchanged and the handler returns [OK]. *)
Theorem error_event_frame env op event p s d ci ch :
  event_lacks event DEVICE_DMA_CALLBACK_EVENT_START →
  event_lacks event DEVICE_DMA_CALLBACK_EVENT_COMPLETE →
  event_has event DEVICE_DMA_CALLBACK_EVENT_ERROR →
  descs s !! p = Some d →
  channel d = Some ci →
  dma_channels s !! ci = Some ch →
  (error_req_is_activated env ≠ 0 →
   ∃ s', unipro_dma_tx_callback env op event p s
           = Ret (DEVICE_DMA_ERROR_DMA_FAILED, s')
         ∧ dma_channels s'
           = <[ci := chan_set_saved_tx_water_mark
                       (regs s (REG_TX_BUFFER_SPACE_OFFSET_REG (ch_cportid ch)))
                       ch]> (dma_channels s)
         ∧ (∀ r, regs s' r
                 = if decide (r = REG_TX_BUFFER_SPACE_OFFSET_REG (ch_cportid ch))
                   then 0 else regs s r)
         ∧ cports s' = cports s
         ∧ descs s' = descs s
         ∧ sync_descs s' = sync_descs s
         ∧ trace s' = trace s
         ∧ tx_fifo_lock s' = tx_fifo_lock s
         ∧ max_channel s' = max_channel s)
  ∧ (error_req_is_activated env = 0 →
     unipro_dma_tx_callback env op event p s = Ret (OK, s)).
Proof.
  intros Hs Hc He Hd Hch Hci. unfold unipro_dma_tx_callback.
  rewrite on_event_skip by done. simpl.
  rewrite on_event_skip by done. simpl.
  rewrite on_event_take by done. unfold tx_callback_error.
  rewrite Hd. simpl. rewrite Hch. simpl. rewrite Hci. simpl.
  split; intros Hact.
  - destruct (decide (error_req_is_activated env ≠ 0)); [|done]. simpl.
    eexists. split; [done|]. simpl.
    rewrite (list_alter_as_insert _ _ _ _ Hci). by repeat split.
  - destruct (decide (error_req_is_activated env ≠ 0)); [done|]. by simpl.
Qed.
End Handler.

Lemma complete_event_spec_witness :
  (∃ s', unipro_dma_tx_callback (H := bridge) env_inactive 0x77 2 0x5000
           busy_state = Ret (0, s')
         ∧ trace s' = trace busy_state
                      ++ [EvSetEom 1; EvDmaOpFree 0x77;
                          EvCallback 1 (CbUser 0x700) 0 0x9000 0x42;
                          EvAtablTransferCompleted 0x21; EvFree 0x5000]
         ∧ tx_fifo <$> cports s' !! 1 = Some []
         ∧ tx_fifo_lock s' = tx_fifo_lock busy_state + 1)
  ∧ (∃ s', unipro_dma_tx_callback (H := bridge) env_inactive 0x77 2 0x5000
             half_state = Ret (0, s')
           ∧ channel <$> descs s' !! 0x5000 = Some None
           ∧ tx_fifo <$> cports s' !! 1 = Some [0x5000]
           ∧ tx_fifo_lock s' = tx_fifo_lock half_state + 1).
Proof.
  split.
  - destruct (complete_event_spec (H := bridge) env_inactive 0x77 2 0x5000
                busy_state busy_desc) as [Hfull _];
      [reflexivity | by vm_compute | reflexivity | reflexivity | reflexivity
      | reflexivity |].
    destruct (Hfull (Cport 1 [0x5000] false 0 0 0x2000) 1%nat (idle_channel 1))
      as (s' & Hrun & Htr & _ & Hcp & Hlk);
      [by vm_compute | reflexivity | reflexivity | reflexivity
      | by intros ? |].
    exists s'. split; [exact Hrun|]. split; [exact Htr|].
    split; [by rewrite Hcp|exact Hlk].
  - destruct (complete_event_spec (H := bridge) env_inactive 0x77 2 0x5000
                half_state half_desc) as [_ Hpart];
      [reflexivity | by vm_compute | reflexivity | reflexivity | reflexivity
      | reflexivity |].
    destruct Hpart as (s' & Hrun & _ & Hds & Hcp & Hlk); [by vm_compute|].
    exists s'. split; [exact Hrun|]. split; [by rewrite Hds|].
    split; [by rewrite Hcp|exact Hlk].
Defined.

Lemma error_then_recovered_restores_watermark_witness :
  ∃ s1 s2 s3 s4,
    unipro_dma_tx_callback (H := bridge) env_active 0x77 4 0x5000 blocked_state
      = Ret (5, s1)
    ∧ regs s1 (0x400 + 4 * 0xFFFF) = 0
    ∧ unipro_dma_tx_callback (H := bridge) env_inactive 0x77 8 0x5000 s1
      = Ret (OK, s2)
    ∧ regs s2 (0x400 + 4 * 0xFFFF) = regs blocked_state (0x400 + 4 * 0xFFFF)
    ∧ unipro_send_dma_wait 0x8000 s2 = Ret None
    ∧ unipro_dma_tx_callback (H := bridge) env_inactive 0x77 2 0x5000 s2
      = Ret (0, s3)
    ∧ unipro_send_dma_wait 0x8000 s3 = Ret (Some (0, s4)).
Proof.
  destruct (error_then_recovered_restores_watermark (H := bridge)
              env_active env_inactive env_inactive 0x77 4 8 2 0x5000
              blocked_state blocked_desc 1%nat (idle_channel 1))
    as (s1 & ch1 & Herr & Hci1 & _ & _ & Hzero & Hrec & Hsend);
    [reflexivity | reflexivity | by vm_compute | reflexivity | reflexivity
    | reflexivity | by vm_compute | reflexivity | reflexivity | reflexivity
    | by vm_compute |].
  destruct (Hsend (Cport 1 [0x5000] false 0 0 0x2000) (DescSync 0 None))
    as (s2 & s3 & s4 & Hr & Hw2 & Hc & Hw3);
    [reflexivity | by vm_compute | reflexivity | reflexivity | reflexivity
    | by vm_compute | reflexivity | by vm_compute | reflexivity | reflexivity
    | reflexivity |].
  destruct (Hrec s1 blocked_desc) as (s2' & Hr' & Hreg & _);
    [by injection Herr as <- | reflexivity | exact Hci1 |].
  rewrite Hr in Hr'. injection Hr' as <-.
  exists s1, s2, s3, s4. repeat split; assumption.
Defined.

Lemma error_event_frame_witness :
  (∃ s', unipro_dma_tx_callback (H := bridge) env_active 0x77 4 0x5000
           busy_state = Ret (5, s')
         ∧ ch_saved_tx_water_mark <$> dma_channels s' !! 1%nat = Some 0x30
         ∧ regs s' (0x400 + 4 * 0xFFFF) = 0
         ∧ descs s' = descs busy_state
         ∧ cports s' = cports busy_state
         ∧ trace s' = trace busy_state
         ∧ tx_fifo_lock s' = tx_fifo_lock busy_state)
  ∧ unipro_dma_tx_callback (H := bridge) env_inactive 0x77 4 0x5000 busy_state
    = Ret (OK, busy_state).
Proof.
  split.
  - destruct (error_event_frame (H := bridge) env_active 0x77 4 0x5000
                busy_state busy_desc 1%nat (idle_channel 1)) as [Hact _];
      [reflexivity | reflexivity | by vm_compute | reflexivity | reflexivity
      | reflexivity |].
    destruct Hact as (s' & Hrun & Hdc & Hrg & Hcp & Hds & _ & Htr & Hlk & _);
      [by vm_compute|].
    exists s'. split; [exact Hrun|]. split; [by rewrite Hdc|].
    split; [by rewrite Hrg|]. by repeat split.
  - destruct (error_event_frame (H := bridge) env_inactive 0x77 4 0x5000
                busy_state busy_desc 1%nat (idle_channel 1)) as [_ Hno];
      [reflexivity | reflexivity | by vm_compute | reflexivity | reflexivity
      | reflexivity |].
    by apply Hno.
Defined.

(** ** The Start and Dequeued blocks of the handler *)

Section HandlerBlocks.
Context `{Platform}.

Lemma chan_set_cportid_twice (l : list dma_channel) ci ch a b :
  l !! ci = Some ch →
  alter (chan_set_cportid b) ci (alter (chan_set_cportid a) ci l)
  = <[ci := chan_set_cportid b ch]> l.
Proof.
  intros Hci. rewrite (list_alter_as_insert _ l _ _ Hci).
  rewrite (list_alter_as_insert _ _ ci (chan_set_cportid a ch)).
  - by rewrite list_insert_insert_eq.
  - apply list_lookup_insert_eq. by eapply lookup_lt_Some.
Qed.

(** The ATABL calls of a Start block that runs to its end, in order. *)
Lemma tx_callback_start_ok env p s d ci ch cp :
  descs s !! p = Some d →
  channel d = Some ci →
  dma_channels s !! ci = Some ch →
  cports s !! desc_cport d = Some cp →
  (ch_cportid ch ≠ cportid cp → atabl_connect_cport_to_req env = OK) →
  atabl_activate_req env = 0 →
  ∃ s', tx_callback_start env p s = Ret (Continue 0, s')
        ∧ dma_channels s' = <[ci := chan_set_cportid (cportid cp) ch]> (dma_channels s)
        ∧ trace s'
          = trace s
            ++ (if decide (ch_cportid ch ≠ 0xFFFF ∧ start_req_is_activated env ≠ 0)
                then [EvAtablDeactivate (ch_req ch)] else [])
            ++ (if decide (ch_cportid ch = cportid cp) then []
                else (if decide (ch_cportid ch ≠ 0xFFFF)
                      then [EvAtablDisconnect (ch_req ch)] else [])
                     ++ [EvAtablConnect (cportid cp) (ch_req ch)])
            ++ [EvAtablActivate (ch_req ch)]
        ∧ descs s' = descs s ∧ cports s' = cports s
        ∧ sync_descs s' = sync_descs s ∧ regs s' = regs s
        ∧ tx_fifo_lock s' = tx_fifo_lock s.
Proof.
  intros Hd Hch Hci Hcp Hconn Hact. unfold tx_callback_start.
  rewrite Hd. simpl. rewrite Hch. simpl. rewrite Hci. simpl. rewrite Hcp. simpl.
  destruct (decide (ch_cportid ch ≠ 65535)) as [Hb|Hu];
    destruct (decide (ch_cportid ch ≠ cportid cp)) as [Hne|He];
    destruct (decide (start_req_is_activated env ≠ 0)) as [Ha|Hi];
    try apply dec_stable in He;
    rewrite ?(Hconn Hne), ?Hact; simpl;
    (eexists; split; [done|]); simpl;
    rewrite ?(chan_set_cportid_twice _ _ _ _ _ Hci),
            ?(list_alter_as_insert _ _ _ _ Hci);
    (split; [done|]);
    (split; [|by repeat split]);
    repeat case_decide; try (exfalso; tauto);
    by rewrite <- ?app_assoc.
Qed.


Lemma chan_unbind_idle (l : list dma_channel) ci ch :
  l !! ci = Some ch → ch_cportid ch = 0xFFFF →
  l = <[ci := chan_set_cportid 0xFFFF ch]> l.
Proof.
  intros Hci Hu. symmetry. apply list_insert_id. rewrite Hci. f_equal.
  destruct ch; simpl in *. by subst.
Qed.

Lemma tx_callback_start_connect_fails env p s d ci ch cp :
  descs s !! p = Some d →
  channel d = Some ci →
  dma_channels s !! ci = Some ch →
  cports s !! desc_cport d = Some cp →
  ch_cportid ch ≠ cportid cp →
  atabl_connect_cport_to_req env ≠ OK →
  ∃ s', tx_callback_start env p s
          = Ret (Return (atabl_connect_cport_to_req env), s')
        ∧ dma_channels s' = <[ci := chan_set_cportid 0xFFFF ch]> (dma_channels s)
        ∧ trace s'
          = trace s
            ++ (if decide (ch_cportid ch ≠ 0xFFFF ∧ start_req_is_activated env ≠ 0)
                then [EvAtablDeactivate (ch_req ch)] else [])
            ++ (if decide (ch_cportid ch ≠ 0xFFFF)
                then [EvAtablDisconnect (ch_req ch)] else [])
            ++ [EvAtablConnect (cportid cp) (ch_req ch)]
        ∧ descs s' = descs s ∧ cports s' = cports s
        ∧ sync_descs s' = sync_descs s ∧ regs s' = regs s
        ∧ tx_fifo_lock s' = tx_fifo_lock s.
Proof.
  intros Hd Hch Hci Hcp Hne Hconn. unfold tx_callback_start.
  rewrite Hd. simpl. rewrite Hch. simpl. rewrite Hci. simpl. rewrite Hcp. simpl.
  destruct (decide (ch_cportid ch ≠ cportid cp)) as [_|?]; [|done].
  destruct (decide (ch_cportid ch ≠ 65535)) as [Hb|Hu];
    destruct (decide (start_req_is_activated env ≠ 0)) as [Ha|Hi];
    try apply dec_stable in Hu; simpl;
    (destruct (decide (atabl_connect_cport_to_req env ≠ OK)); [|done]);
    (eexists; split; [done|]); simpl;
    rewrite ?(list_alter_as_insert _ _ _ _ Hci);
    (split; [done || by apply chan_unbind_idle|]);
    (split; [|by repeat split]);
    repeat case_decide; try (exfalso; tauto);
    by rewrite <- ?app_assoc.
Qed.

Lemma tx_callback_start_activate_fails env p s d ci ch cp :
  descs s !! p = Some d →
  channel d = Some ci →
  dma_channels s !! ci = Some ch →
  cports s !! desc_cport d = Some cp →
  (ch_cportid ch ≠ cportid cp → atabl_connect_cport_to_req env = OK) →
  atabl_activate_req env ≠ 0 →
  ∃ s', tx_callback_start env p s = Ret (Return (atabl_activate_req env), s')
        ∧ dma_channels s'
          = <[ci := if decide (ch_cportid ch = cportid cp) then ch
                    else chan_set_cportid 0xFFFF ch]> (dma_channels s)
        ∧ descs s' = descs s ∧ cports s' = cports s
        ∧ sync_descs s' = sync_descs s ∧ regs s' = regs s
        ∧ tx_fifo_lock s' = tx_fifo_lock s.
Proof.
  intros Hd Hch Hci Hcp Hconn Hact. unfold tx_callback_start.
  rewrite Hd. simpl. rewrite Hch. simpl. rewrite Hci. simpl. rewrite Hcp. simpl.
  destruct (decide (ch_cportid ch ≠ 65535)) as [Hb|Hu];
    destruct (decide (ch_cportid ch ≠ cportid cp)) as [Hne|He];
    destruct (decide (start_req_is_activated env ≠ 0)) as [Ha|Hi];
    try apply dec_stable in He; try apply dec_stable in Hu;
    rewrite ?(Hconn Hne); simpl;
    (destruct (decide (atabl_activate_req env ≠ 0)); [|done]);
    (eexists; split; [done|]); simpl;
    rewrite ?(list_alter_as_insert _ _ _ _ Hci);
    (split; [|by repeat split]);
    case_decide; try done;
    first [ symmetry; by apply list_insert_id | by apply chan_unbind_idle ].
Qed.

(** X1. Start event, success: the channel ends up bound to the descriptor's
    CPort after the ATABL request has been deactivated if it was active,
    disconnected if it was connected to another CPort, connected if the
    CPort differs, and activated; nothing else changes. *)
Theorem start_event_binds_channel env op event p s d ci ch cp :
  event_has event DEVICE_DMA_CALLBACK_EVENT_START →
  event_lacks event DEVICE_DMA_CALLBACK_EVENT_COMPLETE →
  event_lacks event DEVICE_DMA_CALLBACK_EVENT_ERROR →
  event_lacks event DEVICE_DMA_CALLBACK_EVENT_RECOVERED →
  event_lacks event DEVICE_DMA_CALLBACK_EVENT_DEQUEUED →
  descs s !! p = Some d →
  channel d = Some ci →
  dma_channels s !! ci = Some ch →
  cports s !! desc_cport d = Some cp →
  (ch_cportid ch ≠ cportid cp → atabl_connect_cport_to_req env = OK) →
  atabl_activate_req env = 0 →
  ∃ s', unipro_dma_tx_callback env op event p s = Ret (OK, s')
        ∧ dma_channels s' = <[ci := chan_set_cportid (cportid cp) ch]> (dma_channels s)
        ∧ trace s'
          = trace s
            ++ (if decide (ch_cportid ch ≠ 0xFFFF ∧ start_req_is_activated env ≠ 0)
                then [EvAtablDeactivate (ch_req ch)] else [])
            ++ (if decide (ch_cportid ch = cportid cp) then []
                else (if decide (ch_cportid ch ≠ 0xFFFF)
                      then [EvAtablDisconnect (ch_req ch)] else [])
                     ++ [EvAtablConnect (cportid cp) (ch_req ch)])
            ++ [EvAtablActivate (ch_req ch)]
        ∧ descs s' = descs s ∧ cports s' = cports s
        ∧ sync_descs s' = sync_descs s ∧ regs s' = regs s
        ∧ tx_fifo_lock s' = tx_fifo_lock s.
Proof.
  intros Hs Hc He Hr Hq Hd Hch Hci Hcp Hconn Hact.
  destruct (tx_callback_start_ok env p s d ci ch cp) as (s' & Hrun & Hrest);
    try done.
  exists s'. split; [|done]. unfold unipro_dma_tx_callback.
  rewrite on_event_take by done. rewrite Hrun. simpl.
  rewrite on_event_skip by done. simpl.
  rewrite on_event_skip by done. simpl.
  rewrite on_event_skip by done. simpl.
  by rewrite on_event_skip by done.
Qed.

(** X2. Start event, failure: when the connection or the activation of the
    ATABL request fails, the handler returns that status at once,
    whichever other event bits are set: no descriptor, queue, register or
    semaphore changes, and the channel is not left recorded as bound to a
    CPort other than the descriptor's. *)
Theorem start_event_failure_aborts env op event p s d ci ch cp :
  event_has event DEVICE_DMA_CALLBACK_EVENT_START →
  descs s !! p = Some d →
  channel d = Some ci →
  dma_channels s !! ci = Some ch →
  cports s !! desc_cport d = Some cp →
  (ch_cportid ch ≠ cportid cp ∧ atabl_connect_cport_to_req env ≠ OK)
  ∨ ((ch_cportid ch ≠ cportid cp → atabl_connect_cport_to_req env = OK)
     ∧ atabl_activate_req env ≠ 0) →
  ∃ rc s' ch',
    unipro_dma_tx_callback env op event p s = Ret (rc, s')
    ∧ rc ≠ 0
    ∧ rc = (if decide (ch_cportid ch ≠ cportid cp
                       ∧ atabl_connect_cport_to_req env ≠ OK)
            then atabl_connect_cport_to_req env else atabl_activate_req env)
    ∧ dma_channels s' = <[ci := ch']> (dma_channels s)
    ∧ (ch_cportid ch' = 0xFFFF ∨ ch' = ch ∧ ch_cportid ch = cportid cp)
    ∧ ch_chan ch' = ch_chan ch ∧ ch_req ch' = ch_req ch
    ∧ descs s' = descs s ∧ cports s' = cports s
    ∧ sync_descs s' = sync_descs s ∧ regs s' = regs s
    ∧ tx_fifo_lock s' = tx_fifo_lock s.
Proof.
  intros Hs Hd Hch Hci Hcp [[Hne Hconn]|[Hconn Hact]].
  - destruct (tx_callback_start_connect_fails env p s d ci ch cp)
      as (s' & Hrun & Hdc & _ & Hrest); try done.
    exists (atabl_connect_cport_to_req env), s', (chan_set_cportid 0xFFFF ch).
    split.
    { unfold unipro_dma_tx_callback. rewrite on_event_take by done.
      by rewrite Hrun. }
    split; [done|]. split; [by rewrite decide_True|].
    split; [done|]. split; [left; reflexivity|].
    destruct Hrest as (?&?&?&?&?). simpl. by repeat split.
  - destruct (tx_callback_start_activate_fails env p s d ci ch cp)
      as (s' & Hrun & Hdc & Hrest); try done.
    exists (atabl_activate_req env), s',
      (if decide (ch_cportid ch = cportid cp) then ch
       else chan_set_cportid 0xFFFF ch).
    split.
    { unfold unipro_dma_tx_callback. rewrite on_event_take by done.
      by rewrite Hrun. }
    split; [done|]. split.
    { destruct (decide (_ ∧ _)) as [[Hne Hf]|]; [|done]. by rewrite Hconn in Hf. }
    split; [done|]. destruct Hrest as (?&?&?&?&?).
    destruct (decide (ch_cportid ch = cportid cp)); simpl.
    + split; [by right|]. by repeat split.
    + split; [by left|]. by repeat split.
Qed.

(** X3. Dequeued event: the handler frees the DMA operation, calls the
    completion once with status 0, unlinks and frees the descriptor and
    posts [tx_fifo_lock] once; it neither sets the end-of-message flag nor
    reports a completed transfer to the ATABL. *)
Theorem dequeued_event_spec env op event p s d c :
  event_lacks event DEVICE_DMA_CALLBACK_EVENT_START →
  event_lacks event DEVICE_DMA_CALLBACK_EVENT_COMPLETE →
  event_lacks event DEVICE_DMA_CALLBACK_EVENT_ERROR →
  event_lacks event DEVICE_DMA_CALLBACK_EVENT_RECOVERED →
  event_has event DEVICE_DMA_CALLBACK_EVENT_DEQUEUED →
  descs s !! p = Some d →
  cports s !! desc_cport d = Some c →
  callback_ready s d →
  ∃ s', unipro_dma_tx_callback env op event p s = Ret (OK, s')
        ∧ trace s' = trace s ++ [EvDmaOpFree op] ++ completion_calls d 0
                       ++ [EvFree p]
        ∧ descs s' = delete p (descs s)
        ∧ cports s'
          = <[desc_cport d :=
                cport_set_tx_fifo (filter (λ q, q ≠ p) (tx_fifo c)) c]> (cports s)
        ∧ sync_descs s' = completion_sync d 0 (sync_descs s)
        ∧ tx_fifo_lock s' = tx_fifo_lock s + 1
        ∧ dma_channels s' = dma_channels s
        ∧ regs s' = regs s.
Proof.
  intros Hs Hc He Hr Hq Hd Hcp Hrdy. unfold unipro_dma_tx_callback.
  rewrite on_event_skip by done. simpl.
  rewrite on_event_skip by done. simpl.
  rewrite on_event_skip by done. simpl.
  rewrite on_event_skip by done. simpl.
  rewrite on_event_take by done. unfold tx_callback_dequeued.
  rewrite Hd. simpl.
  destruct (invoke_callback_spec d 0 (emit (EvDmaOpFree op) s))
    as (s1 & -> & Htr & Hsy & Hcps & Hds & Hdc & Hrg & Hlk & Hmx); [done|].
  simpl. unfold unipro_xfer_dequeue_descriptor. rewrite Hds. simpl.
  rewrite Hd. simpl. eexists. split; [done|]. simpl.
  rewrite Htr, Hds, Hcps, Hsy, Hlk, Hdc, Hrg. simpl.
  rewrite (alter_as_insert _ _ _ _ Hcp), <- !app_assoc. by repeat split.
Qed.


End HandlerBlocks.

(** ** The flush of a CPort *)

Section Flush.
Context `{Platform}.






Lemma NoDup_reverse_2 (l : list Z) : NoDup l → NoDup (reverse l).
Proof. by rewrite reverse_Permutation. Qed.






End Flush.

(** ** The blocking send *)

Section BlockingSend.
Context `{Platform}.

(** X6. A blocking send that cannot be queued returns the status of
    [unipro_send_async_dma] without waiting and leaves the driver as it
    found it. *)
Theorem unipro_send_dma_error_passthrough zalloc sync id buf l s :
  sync_descs s !! sync = None →
  cport_handle s id = None
  ∨ (∃ c, cport_handle s id = Some c ∧ pending_reset c = true)
  ∨ zalloc = None →
  ∃ rc, unipro_send_dma_submit zalloc sync id buf l s = (Some rc, s)
        ∧ (rc = - EINVAL ∨ rc = - EPIPE ∨ rc = - ENOMEM)
        ∧ rc = (unipro_send_async_dma zalloc id buf l CbSendSync sync s).1.
Proof.
  intros Hfree Hfail. unfold unipro_send_dma_submit, unipro_send_async_dma.
  assert (Hback : ∀ rc : Z,
            (Some rc,
             set_sync_descs (delete sync)
               (set_sync_descs <[sync:=DescSync 0 None]> s)) = (Some rc, s)).
  { intros rc. f_equal. destruct s. unfold set_sync_descs. simpl in *.
    f_equal. by rewrite delete_insert_eq, delete_id. }
  unfold cport_handle in *. simpl.
  destruct (cports s !! id) as [c|] eqn:Hc.
  - destruct (pending_reset c) eqn:Hp.
    + exists (- EPIPE). simpl. rewrite Hback. by repeat split; eauto.
    + destruct Hfail as [?|[(c' & Hc' & Hp') | -> ]]; [done|congruence|].
      exists (- ENOMEM). simpl. rewrite Hback. by repeat split; eauto.
  - exists (- EINVAL). simpl. rewrite Hback. by repeat split; eauto.
Qed.

(** X7. The status [unipro_send_cb] stores is the one the blocking send
    returns when it wakes up, its record being released; a [NULL] record
    is refused with [-EINVAL] and nothing is stored. *)
Theorem unipro_send_cb_wakes_sender status buf sync s sd :
  sync ≠ 0 →
  sync_descs s !! sync = Some sd →
  0 ≤ lock sd →
  unipro_send_cb status buf 0 s = Ret (- EINVAL, s)
  ∧ ∃ s1 s2,
      unipro_send_cb status buf sync s = Ret (0, s1)
      ∧ unipro_send_dma_wait sync s1 = Ret (Some (status, s2))
      ∧ sync_descs s2 = delete sync (sync_descs s)
      ∧ cports s2 = cports s ∧ descs s2 = descs s ∧ trace s2 = trace s
      ∧ tx_fifo_lock s2 = tx_fifo_lock s.
Proof.
  intros Hsync Hsd Hlock. split; [done|].
  unfold unipro_send_cb. destruct (decide (sync = 0)); [done|].
  rewrite Hsd. simpl. eexists _, _. split; [done|].
  unfold unipro_send_dma_wait. simpl. rewrite lookup_insert_eq. simpl.
  destruct (decide (lock sd + 1 <= 0)); [lia|]. simpl. split; [done|]. simpl.
  by rewrite delete_insert_eq.
Qed.




End BlockingSend.

(** ** The round-robin scan *)

Section Scan.
Context `{Platform}.

Lemma pick_loop_skip n start s :
  0 < unipro_cport_count < 2 ^ 32 →
  scan_skips s (start `mod` unipro_cport_count) →
  pick_tx_descriptor_loop (S n) start s
  = pick_tx_descriptor_loop n (start `mod` unipro_cport_count + 1) s.
Proof.
  intros Hcnt Hskip. unfold scan_skips in Hskip.
  pose proof (Z.mod_pos_bound start unipro_cport_count (proj1 Hcnt)) as Hb.
  cbn [pick_tx_descriptor_loop]. unfold cport_handle.
  rewrite u32_small by (destruct Hcnt; lia).
  destruct (cports s !! (start `mod` unipro_cport_count)) as [c|] eqn:Hc;
    [|done].
  destruct Hskip as [Hpr [Hq|(p & d & ci & Hhd & Hd & Hch)]].
  - rewrite Hq, Hpr. by simpl.
  - destruct (tx_fifo c) as [|x q] eqn:Hq; [done|]. simpl in Hhd.
    injection Hhd as ->. simpl. rewrite Hpr. simpl. rewrite Hc. simpl.
    rewrite Hq. simpl. rewrite Hd. simpl. by rewrite Hch.
Qed.

Lemma pick_loop_pick n start s p :
  0 < unipro_cport_count < 2 ^ 32 →
  scan_picks s (start `mod` unipro_cport_count) p →
  pick_tx_descriptor_loop (S n) start s = Ret (Some p, s).
Proof.
  intros Hcnt (c & Hc & Hpr & Hhd & Hu).
  cbn [pick_tx_descriptor_loop]. unfold cport_handle. rewrite Hc.
  destruct (tx_fifo c) as [|x q] eqn:Hq; [done|]. simpl in Hhd.
  injection Hhd as ->. simpl. rewrite Hpr. simpl. rewrite Hc. simpl.
  rewrite Hq. simpl. unfold unbound_in in Hu.
  destruct (descs s !! p) as [d|]; [|done]. simpl in *.
  injection Hu as ->. done.
Qed.

Lemma pick_loop_first k :
  ∀ n start s p,
    0 < unipro_cport_count < 2 ^ 32 →
    (k < n)%nat →
    (∀ j, (j < k)%nat →
          scan_skips s ((start + Z.of_nat j) `mod` unipro_cport_count)) →
    scan_picks s ((start + Z.of_nat k) `mod` unipro_cport_count) p →
    pick_tx_descriptor_loop n start s = Ret (Some p, s).
Proof.
  induction k as [|k IH]; intros n start s p Hcnt Hkn Hskip Hpick.
  - destruct n as [|n]; [lia|]. apply pick_loop_pick; [done|].
    by rewrite Z.add_0_r in Hpick.
  - destruct n as [|n]; [lia|]. rewrite pick_loop_skip; [|done|].
    + apply IH; [done|lia| |].
      * intros j Hj. rewrite <- Z.add_assoc, Zplus_mod_idemp_l.
        replace (start + (1 + Z.of_nat j)) with (start + Z.of_nat (S j)) by lia.
        apply Hskip. lia.
      * rewrite <- Z.add_assoc, Zplus_mod_idemp_l.
        by replace (start + (1 + Z.of_nat k)) with (start + Z.of_nat (S k)) by lia.
    + specialize (Hskip O ltac:(lia)). by rewrite Z.add_0_r in Hskip.
Qed.

Lemma pick_loop_none n :
  ∀ start s,
    0 < unipro_cport_count < 2 ^ 32 →
    (∀ j, (j < n)%nat →
          scan_skips s ((start + Z.of_nat j) `mod` unipro_cport_count)) →
    pick_tx_descriptor_loop n start s = Ret (None, s).
Proof.
  induction n as [|n IH]; intros start s Hcnt Hskip; [done|].
  rewrite pick_loop_skip; [|done|].
  - apply IH; [done|]. intros j Hj.
    rewrite <- Z.add_assoc, Zplus_mod_idemp_l.
    replace (start + (1 + Z.of_nat j)) with (start + Z.of_nat (S j)) by lia.
    apply Hskip. lia.
  - specialize (Hskip O ltac:(lia)). by rewrite Z.add_0_r in Hskip.
Qed.

(** X9. The scan is round-robin: started at [start], with no reset pending on
    the CPorts it visits, [pick_tx_descriptor] returns the head of the
    first CPort, counting cyclically from [start], whose head descriptor
    waits for a channel, and returns nothing when all CPorts are passed
    over; it leaves the state as it is. *)
Theorem pick_tx_descriptor_round_robin start s :
  0 < unipro_cport_count < 2 ^ 32 →
  (∀ k p,
     0 ≤ k < unipro_cport_count →
     (∀ j, 0 ≤ j < k → scan_skips s ((start + j) `mod` unipro_cport_count)) →
     scan_picks s ((start + k) `mod` unipro_cport_count) p →
     pick_tx_descriptor start s = Ret (Some p, s))
  ∧ ((∀ j, 0 ≤ j < unipro_cport_count →
           scan_skips s ((start + j) `mod` unipro_cport_count)) →
     pick_tx_descriptor start s = Ret (None, s)).
Proof.
  intros Hcnt. unfold pick_tx_descriptor. split.
  - intros k p Hk Hskip Hpick.
    apply (pick_loop_first (Z.to_nat k)); [done|lia| |].
    + intros j Hj. apply Hskip. lia.
    + by rewrite Z2Nat.id by lia.
  - intros Hskip. apply pick_loop_none; [done|]. intros j Hj. apply Hskip. lia.
Qed.


Lemma invoke_callback_cports d status s s' :
  invoke_callback d status s = Ret s' → cports s' = cports s.
Proof.
  unfold invoke_callback, unipro_send_cb. destruct (callback d); simpl.
  - by intros [= <-].
  - destruct (decide (priv d = 0)); simpl; [by intros [= <-]|].
    destruct (sync_descs _ !! priv d); simpl; [|done]. by intros [= <-].
  - by intros [= <-].
Qed.







End Scan.

(** ** Submission of a transfer *)

Section Submission.
Context `{Platform}.




Lemma pick_dma_channel_index s cp :
  2 ≤ max_channel s < 2 ^ 31 →
  0 ≤ cportid cp < 2 ^ 32 →
  pick_dma_channel s cp
  = Ret (if decide (cportid cp = 0) then 0
         else (cportid cp - 1) `mod` (max_channel s - 1) + 1).
Proof.
  intros Hm Hc. unfold pick_dma_channel.
  rewrite (u32_small (max_channel s - 1)), (u32_small (max_channel s)) by lia.
  destruct (decide (cportid cp = 0)); simpl.
  - by rewrite DEBUGASSERT_true by (apply bool_decide_eq_true; lia).
  - destruct (decide (max_channel s - 1 = 0)); [lia|]. simpl.
    rewrite (u32_small (cportid cp - 1)) by lia.
    pose proof (Z.mod_pos_bound (cportid cp - 1) (max_channel s - 1)
                  ltac:(lia)).
    rewrite u32_small by lia.
    by rewrite DEBUGASSERT_true by (apply bool_decide_eq_true; lia).
Qed.

(** The run of [unipro_dma_xfer] on a descriptor that has not been
    submitted before, once the operation is allocated. *)
Lemma unipro_dma_xfer_fresh env p ci s d c ch op :
  descs s !! p = Some d →
  data_offset d = 0 →
  0 ≤ len d < 2 ^ 32 →
  cports s !! desc_cport d = Some c →
  dma_channels s !! ci = Some ch →
  dma_op_alloc env = (OK, op) →
  op ≠ 0 →
  unipro_dma_xfer env p ci s
  = Ret (dma_enqueue env,
         if decide (dma_enqueue env ≠ 0) then
           emit (EvDmaOpFree op)
             (set_descs
                <[p := desc_set_channel None (desc_start_xfer ci op (len d) d)]>
                (emit (EvDmaEnqueue (ch_chan ch) op
                         (DmaOp p xfer_callback_events 1 (len d) (data d)
                            (tx_buf c)))
                   (set_descs <[p := desc_start_xfer ci op (len d) d]> s)))
         else
           emit (EvDmaEnqueue (ch_chan ch) op
                   (DmaOp p xfer_callback_events 1 (len d) (data d) (tx_buf c)))
             (set_descs <[p := desc_start_xfer ci op (len d) d]> s)).
Proof.
  intros Hd Hoff Hlen Hc Hci Halloc Hop. unfold unipro_dma_xfer.
  rewrite Hd. simpl. rewrite DEBUGASSERT_true by by apply bool_decide_eq_true.
  simpl. rewrite Halloc. destruct (decide (OK ≠ OK)); [done|].
  destruct (decide (op = 0)); [done|]. rewrite Hc. simpl. rewrite Hci. simpl.
  destruct (decide (data_offset d ≠ 0)); [done|].
  rewrite Hoff. simpl. rewrite u32_small by done.
  destruct (decide (dma_enqueue env ≠ 0)) as [|Hz]; [done|].
  apply dec_stable in Hz. by rewrite Hz.
Qed.

(** X12. The first submission of a descriptor: the whole buffer is handed to
    the DMA driver as one operation, from the caller's buffer to the
    start of the CPort's transmit buffer, with all five events requested;
    the descriptor is bound to the channel and its offset set to its
    length.  Nothing is completed and the semaphore is not posted. *)
Theorem unipro_dma_xfer_first_transfer env p ci s d c ch op :
  descs s !! p = Some d →
  data_offset d = 0 →
  0 ≤ len d < 2 ^ 32 →
  cports s !! desc_cport d = Some c →
  dma_channels s !! ci = Some ch →
  dma_op_alloc env = (OK, op) →
  op ≠ 0 →
  dma_enqueue env = 0 →
  ∃ s', unipro_dma_xfer env p ci s = Ret (0, s')
        ∧ descs s'
          = <[p := Desc (desc_cport d) (data d) (len d) (priv d) (callback d)
                        (len d) (Some ci) op]> (descs s)
        ∧ trace s'
          = trace s
            ++ [EvDmaEnqueue (ch_chan ch) op
                  (DmaOp p xfer_callback_events 1 (len d) (data d) (tx_buf c))]
        ∧ cports s' = cports s ∧ sync_descs s' = sync_descs s
        ∧ dma_channels s' = dma_channels s ∧ regs s' = regs s
        ∧ tx_fifo_lock s' = tx_fifo_lock s.
Proof.
  intros Hd Hoff Hlen Hc Hci Halloc Hop Henq.
  rewrite (unipro_dma_xfer_fresh env p ci s d c ch op) by done.
  rewrite Henq. destruct (decide (0 ≠ 0)); [done|].
  eexists. split; [done|]. by repeat split.
Qed.

(** X13. A submission that fails.  When no DMA operation can be allocated the
    status is returned and nothing has changed.  When the DMA driver
    refuses the operation the status is returned, the operation is freed
    and the descriptor is unbound again, still queued and with no
    completion called; its offset stays at its length and its [dma_op]
    keeps the address of the freed operation. *)
Theorem unipro_dma_xfer_failure env p ci s d c ch :
  descs s !! p = Some d →
  data_offset d = 0 →
  0 ≤ len d < 2 ^ 32 →
  cports s !! desc_cport d = Some c →
  dma_channels s !! ci = Some ch →
  (dma_op_alloc env).1 ≠ OK
  ∨ ((dma_op_alloc env).1 = OK ∧ (dma_op_alloc env).2 ≠ 0 ∧ dma_enqueue env ≠ 0) →
  ∃ rc s',
    unipro_dma_xfer env p ci s = Ret (rc, s')
    ∧ rc ≠ 0
    ∧ ((dma_op_alloc env).1 ≠ OK → rc = (dma_op_alloc env).1 ∧ s' = s)
    ∧ ((dma_op_alloc env).1 = OK →
       rc = dma_enqueue env
       ∧ descs s'
         = <[p := Desc (desc_cport d) (data d) (len d) (priv d) (callback d)
                       (len d) None (dma_op_alloc env).2]> (descs s)
       ∧ trace s'
         = trace s
           ++ [EvDmaEnqueue (ch_chan ch) (dma_op_alloc env).2
                 (DmaOp p xfer_callback_events 1 (len d) (data d) (tx_buf c));
               EvDmaOpFree (dma_op_alloc env).2])
    ∧ cports s' = cports s ∧ sync_descs s' = sync_descs s
    ∧ dma_channels s' = dma_channels s ∧ regs s' = regs s
    ∧ tx_fifo_lock s' = tx_fifo_lock s.
Proof.
  intros Hd Hoff Hlen Hc Hci Hfail.
  destruct (dma_op_alloc env) as [arc op] eqn:Halloc. simpl in *.
  destruct (decide (arc = OK)) as [->|Hn].
  - destruct Hfail as [?|(_ & Hop & Henq)]; [done|].
    rewrite (unipro_dma_xfer_fresh env p ci s d c ch op) by done.
    destruct (decide (dma_enqueue env ≠ 0)); [|done].
    eexists _, _. split; [done|]. split; [done|]. split; [done|]. simpl.
    split; [|by repeat split]. intros _. split; [done|].
    rewrite insert_insert_eq, <- app_assoc. by split.
  - unfold unipro_dma_xfer. rewrite Hd. simpl.
    rewrite DEBUGASSERT_true by by apply bool_decide_eq_true. simpl.
    rewrite Halloc. destruct (decide (arc ≠ OK)); [|done].
    exists arc, s. split; [done|]. split; [done|]. split; [done|].
    split; [done|]. by repeat split.
Qed.

(** X14. One turn of the worker: the descriptor the scan returns is submitted
    on the channel that [pick_dma_channel] assigns to its CPort, and the
    scan resumes at the CPort after it. *)
Theorem unipro_tx_worker_step_dispatches env start s s1 p d c ch op :
  pick_tx_descriptor start s = Ret (Some p, s1) →
  descs s1 !! p = Some d →
  data_offset d = 0 →
  0 ≤ len d < 2 ^ 32 →
  cports s1 !! desc_cport d = Some c →
  0 ≤ cportid c < 2 ^ 32 - 1 →
  2 ≤ max_channel s1 < 2 ^ 31 →
  dma_channels s1
    !! Z.to_nat (if decide (cportid c = 0) then 0
                 else (cportid c - 1) `mod` (max_channel s1 - 1) + 1)
    = Some ch →
  dma_op_alloc env = (OK, op) →
  op ≠ 0 →
  dma_enqueue env = 0 →
  ∃ s', unipro_tx_worker_step env start s = Ret (Some (cportid c + 1, 0), s')
        ∧ descs s'
          = <[p := Desc (desc_cport d) (data d) (len d) (priv d) (callback d)
                        (len d)
                        (Some (Z.to_nat
                                 (if decide (cportid c = 0) then 0
                                  else (cportid c - 1) `mod` (max_channel s1 - 1)
                                       + 1)))
                        op]> (descs s1)
        ∧ trace s'
          = trace s1
            ++ [EvDmaEnqueue (ch_chan ch) op
                  (DmaOp p xfer_callback_events 1 (len d) (data d) (tx_buf c))]
        ∧ cports s' = cports s1
        ∧ tx_fifo_lock s' = tx_fifo_lock s1.
Proof.
  intros Hpick Hd Hoff Hlen Hc Hid Hmax Hci Halloc Hop Henq.
  unfold unipro_tx_worker_step. rewrite Hpick. simpl. rewrite Hd. simpl.
  rewrite Hc. simpl. rewrite pick_dma_channel_index by lia. simpl.
  rewrite (unipro_dma_xfer_fresh env p _ s1 d c ch op) by done.
  rewrite Henq. destruct (decide (0 ≠ 0)); [done|]. simpl.
  rewrite u32_small by lia. eexists. split; [done|]. by repeat split.
Qed.

End Submission.

(** ** Initialisation *)

Section Init.
Context `{Platform}.

Lemma init_thresholds_frame n :
  ∀ i s,
    cports (init_thresholds n i s) = cports s
    ∧ descs (init_thresholds n i s) = descs s
    ∧ sync_descs (init_thresholds n i s) = sync_descs s
    ∧ dev (init_thresholds n i s) = dev s
    ∧ atabl_dev (init_thresholds n i s) = atabl_dev s
    ∧ dma_channels (init_thresholds n i s) = dma_channels s
    ∧ max_channel (init_thresholds n i s) = max_channel s
    ∧ tx_fifo_lock (init_thresholds n i s) = tx_fifo_lock s
    ∧ worker_thread (init_thresholds n i s) = worker_thread s
    ∧ trace (init_thresholds n i s) = trace s.
Proof.
  induction n as [|n IH]; intros i s; [by repeat split|].
  cbn [init_thresholds].
  destruct (IH (i + 1)
              (unipro_write (REG_TX_BUFFER_SPACE_OFFSET_REG i)
                 (Z.lor (unipro_read s (REG_TX_BUFFER_SPACE_OFFSET_REG i))
                    (Z.shiftl (if CONFIG_ARCH_UNIPROTX_DMA_WMB then 16 else 32) 8))
                 s))
    as (-> & -> & -> & -> & -> & -> & -> & -> & -> & ->).
  by repeat split.
Qed.

Lemma init_thresholds_regs n :
  ∀ i s r,
    let m := Z.shiftl (if CONFIG_ARCH_UNIPROTX_DMA_WMB then 0x10 else 0x20) 8 in
    (regs (init_thresholds n i s) r = Z.lor (regs s r) m
     ∧ ∃ j, i ≤ j < i + Z.of_nat n ∧ REG_TX_BUFFER_SPACE_OFFSET_REG j = r)
    ∨ (regs (init_thresholds n i s) r = regs s r
       ∧ ∀ j, i ≤ j < i + Z.of_nat n → REG_TX_BUFFER_SPACE_OFFSET_REG j ≠ r).
Proof.
  induction n as [|n IH]; intros i s r m.
  - right. split; [done|]. intros j Hj. lia.
  - cbn [init_thresholds]. fold m.
    set (s1 := unipro_write (REG_TX_BUFFER_SPACE_OFFSET_REG i)
                 (Z.lor (unipro_read s (REG_TX_BUFFER_SPACE_OFFSET_REG i)) m) s).
    assert (Hs1 : regs s1 r
                  = if decide (r = REG_TX_BUFFER_SPACE_OFFSET_REG i)
                    then Z.lor (regs s r) m else regs s r).
    { unfold s1, unipro_write, unipro_read. simpl.
      destruct (decide (r = _)) as [->|]; done. }
    destruct (IH (i + 1) s1 r) as [[Hr (j & Hj & Hreg)]|[Hr Hno]];
      fold m in Hr; rewrite Hr, Hs1.
    + left. split.
      * destruct (decide (r = _)); [|done].
        by rewrite <- Z.lor_assoc, Z.lor_diag.
      * exists j. split; [lia|done].
    + destruct (decide (r = REG_TX_BUFFER_SPACE_OFFSET_REG i)) as [Heq|Hne].
      * left. split; [done|]. exists i. split; [lia|done].
      * right. split; [done|]. intros j Hj.
        destruct (decide (j = i)) as [->|]; [done|]. apply Hno. lia.
Qed.

(** The thresholds depend on the register file alone. *)
Lemma init_thresholds_regs_only n :
  ∀ i s t, regs s = regs t →
           regs (init_thresholds n i s) = regs (init_thresholds n i t).
Proof.
  induction n as [|n IH]; intros i s t Hst; [done|].
  cbn [init_thresholds]. apply IH. unfold unipro_write, unipro_read. simpl.
  by rewrite Hst.
Qed.

Lemma init_alloc_channels_spec env n :
  ∀ i s,
    max_channel s ≤ max_channel (init_alloc_channels env n i s)
      ≤ max_channel s + Z.of_nat n
    ∧ cports (init_alloc_channels env n i s) = cports s
    ∧ descs (init_alloc_channels env n i s) = descs s
    ∧ sync_descs (init_alloc_channels env n i s) = sync_descs s
    ∧ dev (init_alloc_channels env n i s) = dev s
    ∧ atabl_dev (init_alloc_channels env n i s) = atabl_dev s
    ∧ tx_fifo_lock (init_alloc_channels env n i s) = tx_fifo_lock s
    ∧ worker_thread (init_alloc_channels env n i s) = worker_thread s
    ∧ regs (init_alloc_channels env n i s) = regs s
    ∧ trace (init_alloc_channels env n i s) = trace s
    ∧ length (dma_channels (init_alloc_channels env n i s))
      = length (dma_channels s)
    ∧ (∀ j, (j < i)%nat →
            dma_channels (init_alloc_channels env n i s) !! j
            = dma_channels s !! j)
    ∧ (∀ j, (i ≤ j)%nat →
            Z.of_nat j
            < Z.of_nat i + (max_channel (init_alloc_channels env n i s)
                            - max_channel s) →
            (j < length (dma_channels s))%nat →
            ∃ saved,
              dma_channels (init_alloc_channels env n i s) !! j
              = Some (DmaChannel (device_dma_chan_alloc env j)
                        (device_atabl_req_alloc env j).2 0xFFFF saved)
              ∧ device_dma_chan_alloc env j ≠ 0).
Proof.
  induction n as [|n IH]; intros i s.
  - simpl. repeat split; first [done | lia | intros; lia].
  - cbn [init_alloc_channels].
    destruct (device_atabl_req_alloc env i) as [rc req] eqn:Hreq.
    destruct (decide (rc ≠ 0)).
    { repeat split; first [done | lia | intros; lia]. }
    destruct (decide (device_dma_chan_alloc env i = 0)) as [Hz|Hnz].
    { simpl. rewrite !length_alter.
      repeat split;
        first [done | lia | intros; lia
              | intros j Hj; by rewrite !list_lookup_alter_ne by lia]. }
    match goal with |- context [init_alloc_channels env n (S i) ?t] =>
      set (s1 := t) end.
    destruct (IH (S i) s1)
      as (Hmx & -> & -> & -> & -> & -> & -> & -> & -> & -> & Hlen & Hlow & Hnew).
    assert (Hlen1 : length (dma_channels s1) = length (dma_channels s)).
    { unfold s1. simpl. by rewrite !length_alter. }
    assert (Hmx1 : max_channel s1 = max_channel s + 1) by done.
    repeat split; try done; try lia.
    + intros j Hj. rewrite Hlow by lia. unfold s1. simpl.
      by rewrite !list_lookup_alter_ne by lia.
    + intros j Hj Hlt Hjl. destruct (decide (j = i)) as [->|Hne].
      * rewrite Hlow by lia. unfold s1. simpl.
        destruct (lookup_lt_is_Some_2 (dma_channels s) i Hjl) as [ch Hch].
        exists (ch_saved_tx_water_mark ch).
        rewrite !list_lookup_alter_eq, Hch, Hreq. simpl. done.
      * apply Hnew; lia.
Qed.


Lemma init_free_channels_spec n :
  ∀ i s,
    trace (init_free_channels n i s)
    = trace s ++ (seq i n ≫= λ j, [EvAtablReqFree j; EvDmaChanFree j])
    ∧ cports (init_free_channels n i s) = cports s
    ∧ descs (init_free_channels n i s) = descs s
    ∧ dev (init_free_channels n i s) = dev s
    ∧ atabl_dev (init_free_channels n i s) = atabl_dev s
    ∧ tx_fifo_lock (init_free_channels n i s) = tx_fifo_lock s
    ∧ worker_thread (init_free_channels n i s) = worker_thread s
    ∧ regs (init_free_channels n i s) = regs s.
Proof.
  induction n as [|n IH]; intros i s.
  - simpl. rewrite app_nil_r. by repeat split.
  - cbn [init_free_channels seq].
    destruct (IH (S i) (emit (EvDmaChanFree i) (emit (EvAtablReqFree i) s)))
      as (-> & -> & -> & -> & -> & -> & -> & ->).
    simpl. rewrite <- !app_assoc. by repeat split.
Qed.

(** [unipro_tx_init_dma] once both devices are open. *)
Lemma unipro_tx_init_dma_run env s :
  device_open_dma env ≠ 0 →
  device_open_atabl env ≠ 0 →
  unipro_tx_init_dma env s
  = (_ ← DEBUGASSERT (bool_decide (init_avail_chan env > 1));
     if decide (device_atabl_req_free_count env < init_avail_chan env) then
       Ret (- ENODEV, false,
            emit (EvDeviceClose (device_open_atabl env))
              (emit (EvDeviceClose (device_open_dma env)) (init_opened env s)))
     else
       let s2 := init_alloc_channels env (Z.to_nat (init_avail_chan env)) 0
                   (init_opened env s) in
       if decide (max_channel s2 <= 0) then
         Ret (- ENODEV, false, init_error_no_channel s2)
       else if decide (pthread_create env ≠ 0) then
         Ret (pthread_create env, false,
              init_error_no_channel
                (set_max_channel 0
                   (init_free_channels (Z.to_nat (max_channel s2)) 0 s2)))
       else Ret (0, true, set_worker_thread true s2)).
Proof.
  intros Hdma Hatabl.
  destruct (init_thresholds_frame (Z.to_nat unipro_cport_count) 0
              (set_devs (device_open_dma env) (atabl_dev s)
                 (set_tx_fifo_lock 0 s)))
    as (Tcp & Tds & Tsy & Tdev & Tat & Tdc & Tmx & Tlk & Twk & Ttr).
  unfold unipro_tx_init_dma. simpl.
  destruct (decide (device_open_dma env = 0)); [done|].
  rewrite Tdev. simpl.
  destruct (decide (device_open_atabl env = 0)); [done|].
  fold (init_avail_chan env).
  by destruct (DEBUGASSERT (bool_decide (init_avail_chan env > 1))).
Qed.

Lemma init_opened_frame env s :
  cports (init_opened env s) = cports s
  ∧ descs (init_opened env s) = descs s
  ∧ dev (init_opened env s) = device_open_dma env
  ∧ atabl_dev (init_opened env s) = device_open_atabl env
  ∧ dma_channels (init_opened env s) = dma_channels s
  ∧ max_channel (init_opened env s) = 0
  ∧ tx_fifo_lock (init_opened env s) = 0
  ∧ worker_thread (init_opened env s) = worker_thread s
  ∧ trace (init_opened env s) = trace s
  ∧ regs (init_opened env s)
    = regs (init_thresholds (Z.to_nat unipro_cport_count) 0 s).
Proof.
  destruct (init_thresholds_frame (Z.to_nat unipro_cport_count) 0
              (set_devs (device_open_dma env) (atabl_dev s)
                 (set_tx_fifo_lock 0 s)))
    as (Tcp & Tds & Tsy & Tdev & Tat & Tdc & Tmx & Tlk & Twk & Ttr).
  unfold init_opened. simpl. repeat split; try done.
  apply init_thresholds_regs_only. done.
Qed.


(** The three ways [unipro_tx_init_dma] can end once both devices are
    open and the assertion holds. *)
Lemma unipro_tx_init_dma_cases env s rc tbl s' :
  device_open_dma env ≠ 0 →
  device_open_atabl env ≠ 0 →
  unipro_tx_init_dma env s = Ret (rc, tbl, s') →
  let s2 := init_alloc_channels env (Z.to_nat (init_avail_chan env)) 0
              (init_opened env s) in
  (rc = - ENODEV ∧ tbl = false
   ∧ device_atabl_req_free_count env < init_avail_chan env
   ∧ s' = emit (EvDeviceClose (device_open_atabl env))
            (emit (EvDeviceClose (device_open_dma env)) (init_opened env s)))
  ∨ (rc = - ENODEV ∧ tbl = false ∧ max_channel s2 <= 0
     ∧ s' = init_error_no_channel s2)
  ∨ (rc = pthread_create env ∧ rc ≠ 0 ∧ tbl = false ∧ 0 < max_channel s2
     ∧ s' = init_error_no_channel
              (set_max_channel 0
                 (init_free_channels (Z.to_nat (max_channel s2)) 0 s2)))
  ∨ (rc = 0 ∧ tbl = true ∧ 0 < max_channel s2
     ∧ init_avail_chan env ≤ device_atabl_req_free_count env
     ∧ s' = set_worker_thread true s2).
Proof.
  intros Hdma Hatabl Hrun s2. rewrite unipro_tx_init_dma_run in Hrun by done.
  destruct (DEBUGASSERT (bool_decide (init_avail_chan env > 1))); try done.
  simpl in Hrun. fold s2 in Hrun.
  destruct (decide (device_atabl_req_free_count env < init_avail_chan env)).
  { injection Hrun as <- <- <-. by left. }
  destruct (decide (max_channel s2 <= 0)).
  { injection Hrun as <- <- <-. right. by left. }
  destruct (decide (pthread_create env ≠ 0)).
  { injection Hrun as <- <- <-. right. right. left.
    split; [done|]. split; [done|]. split; [done|]. split; [lia|done]. }
  injection Hrun as <- <- <-. right. right. right.
  split; [done|]. split; [done|]. split; [lia|]. split; [lia|done].
Qed.

(** A result other than [-ENODEV] is reached with both devices open. *)
Lemma unipro_tx_init_dma_outcome_closed env s rc tbl s' :
  unipro_tx_init_dma env s = Ret (rc, tbl, s') →
  rc = - ENODEV ∨ (device_open_dma env ≠ 0 ∧ device_open_atabl env ≠ 0).
Proof.
  intros Hrun. unfold unipro_tx_init_dma in Hrun. simpl in Hrun.
  destruct (decide (device_open_dma env = 0)).
  { injection Hrun as <- _ _. by left. }
  destruct (init_thresholds_frame (Z.to_nat unipro_cport_count) 0
              (set_devs (device_open_dma env) (atabl_dev s)
                 (set_tx_fifo_lock 0 s)))
    as (_ & _ & _ & Tdev & _).
  rewrite Tdev in Hrun. simpl in Hrun.
  destruct (decide (device_open_atabl env = 0)).
  { injection Hrun as <- _ _. by left. }
  by right.
Qed.

Lemma unipro_tx_init_dma_outcome_opens env s rc tbl s' :
  unipro_tx_init_dma env s = Ret (rc, tbl, s') →
  rc = 0 →
  device_open_dma env ≠ 0 ∧ device_open_atabl env ≠ 0.
Proof.
  intros Hrun ->.
  by destruct (unipro_tx_init_dma_outcome_closed env s 0 tbl s' Hrun).
Qed.

(** The initialisation leaves CPorts and descriptors alone. *)
Lemma unipro_tx_init_dma_frame env s rc tbl s' :
  unipro_tx_init_dma env s = Ret (rc, tbl, s') →
  cports s' = cports s ∧ descs s' = descs s.
Proof.
  intros Hrun.
  destruct (init_thresholds_frame (Z.to_nat unipro_cport_count) 0
              (set_devs (device_open_dma env) (atabl_dev s)
                 (set_tx_fifo_lock 0 s)))
    as (Tcp & Tds & Tsy & Tdev & _).
  destruct (decide (device_open_dma env = 0)) as [Hdma|Hdma].
  { unfold unipro_tx_init_dma in Hrun. simpl in Hrun.
    destruct (decide (device_open_dma env = 0)); [|done].
    by injection Hrun as _ _ <-. }
  destruct (decide (device_open_atabl env = 0)) as [Hat|Hat].
  { unfold unipro_tx_init_dma in Hrun. simpl in Hrun.
    destruct (decide (device_open_dma env = 0)); [done|].
    rewrite Tdev in Hrun. simpl in Hrun.
    destruct (decide (device_open_atabl env = 0)); [|done].
    injection Hrun as _ _ <-. by simpl. }
  destruct (init_opened_frame env s) as (Ocp & Ods & _).
  destruct (init_alloc_channels_spec env (Z.to_nat (init_avail_chan env)) 0
              (init_opened env s)) as (_ & Acp & Ads & _).
  destruct (unipro_tx_init_dma_cases env s rc tbl s' Hdma Hat Hrun)
    as [(_ & _ & _ & ->)|[(_ & _ & _ & ->)|[(_ & _ & _ & _ & ->)
       |(_ & _ & _ & _ & ->)]]]; simpl; rewrite ?Acp, ?Ads, ?Ocp, ?Ods;
    try done.
  destruct (init_free_channels_spec
              (Z.to_nat (max_channel
                 (init_alloc_channels env (Z.to_nat (init_avail_chan env)) 0
                    (init_opened env s)))) 0
              (init_alloc_channels env (Z.to_nat (init_avail_chan env)) 0
                 (init_opened env s)))
    as (_ & Fcp & Fds & _).
  by rewrite Fcp, Fds, Acp, Ads, Ocp, Ods.
Qed.

(** X15. How [unipro_tx_init_dma] ends.  It returns 0 exactly when it hands out
    the call table, and then the worker runs, at least one channel is
    allocated, both devices are open and nothing was released.  Otherwise
    it returns [-ENODEV] or the status of [pthread_create], the worker is
    not started, and every device it had opened is closed again.  CPorts
    and descriptors are never touched. *)
Theorem unipro_tx_init_dma_outcome env s rc tbl s' :
  unipro_tx_init_dma env s = Ret (rc, tbl, s') →
  (tbl = true ↔ rc = 0)
  ∧ (rc = 0 →
     worker_thread s' = true ∧ 1 ≤ max_channel s'
     ∧ dev s' = device_open_dma env ∧ device_open_dma env ≠ 0
     ∧ atabl_dev s' = device_open_atabl env ∧ device_open_atabl env ≠ 0
     ∧ trace s' = trace s)
  ∧ (rc ≠ 0 →
     worker_thread s' = worker_thread s
     ∧ (rc = - ENODEV ∨ rc = pthread_create env)
     ∧ (device_open_dma env ≠ 0 →
        EvDeviceClose (device_open_dma env) ∈ trace s')
     ∧ (device_open_dma env ≠ 0 → device_open_atabl env ≠ 0 →
        EvDeviceClose (device_open_atabl env) ∈ trace s'))
  ∧ cports s' = cports s ∧ descs s' = descs s ∧ tx_fifo_lock s' = 0.
Proof.
  intros Hrun.
  destruct (decide (device_open_dma env = 0)) as [Hdma|Hdma].
  { unfold unipro_tx_init_dma in Hrun. simpl in Hrun.
    destruct (decide (device_open_dma env = 0)); [|done].
    injection Hrun as <- <- <-. simpl. split; [done|]. split; [done|].
    split; [|done]. intros _. split; [done|]. split; [by left|]. done. }
  destruct (init_thresholds_frame (Z.to_nat unipro_cport_count) 0
              (set_devs (device_open_dma env) (atabl_dev s)
                 (set_tx_fifo_lock 0 s)))
    as (Tcp & Tds & Tsy & Tdev & Tat & Tdc & Tmx & Tlk & Twk & Ttr).
  destruct (decide (device_open_atabl env = 0)) as [Hat|Hat].
  { unfold unipro_tx_init_dma in Hrun. simpl in Hrun.
    destruct (decide (device_open_dma env = 0)); [done|].
    rewrite Tdev in Hrun. simpl in Hrun.
    destruct (decide (device_open_atabl env = 0)); [|done].
    injection Hrun as <- <- <-. simpl.
    rewrite ?Tcp, ?Tds, ?Tlk, ?Twk, ?Ttr, ?Tdev. simpl.
    split; [done|]. split; [done|]. split; [|done]. intros _.
    split; [done|]. split; [by left|]. split; [|done]. intros _.
    apply elem_of_app. right. apply list_elem_of_here. }
  destruct (init_opened_frame env s)
    as (Ocp & Ods & Odev & Oat & Odc & Omx & Olk & Owk & Otr & Org).
  destruct (init_alloc_channels_spec env (Z.to_nat (init_avail_chan env)) 0
              (init_opened env s))
    as (Amx & Acp & Ads & Asy & Adev & Aat & Alk & Awk & Arg & Atr & _).
  destruct (unipro_tx_init_dma_cases env s rc tbl s' Hdma Hat Hrun)
    as [(-> & -> & _ & ->)|[(-> & -> & _ & ->)|[(-> & Hrc & -> & Hk & ->)
       |(-> & -> & Hk & _ & ->)]]].
  - simpl. rewrite ?Ocp, ?Ods, ?Olk, ?Owk, ?Otr.
    split; [done|]. split; [done|]. split; [|done]. intros _.
    split; [done|]. split; [by left|]. split; intros; rewrite !elem_of_app;
      rewrite ?list_elem_of_singleton; tauto.
  - simpl. rewrite ?Acp, ?Ads, ?Alk, ?Awk, ?Atr, ?Adev, ?Aat, ?Ocp, ?Ods, ?Olk, ?Owk, ?Otr, ?Odev, ?Oat.
    split; [done|]. split; [done|]. split; [|done]. intros _.
    split; [done|]. split; [by left|]. split; intros; rewrite !elem_of_app;
      rewrite ?list_elem_of_singleton; tauto.
  - destruct (init_free_channels_spec
                (Z.to_nat (max_channel
                   (init_alloc_channels env (Z.to_nat (init_avail_chan env)) 0
                      (init_opened env s)))) 0
                (init_alloc_channels env (Z.to_nat (init_avail_chan env)) 0
                   (init_opened env s)))
      as (Ftr & Fcp & Fds & Fdev & Fat & Flk & Fwk & Frg).
    simpl. rewrite ?Ftr, ?Fcp, ?Fds, ?Fdev, ?Fat, ?Flk, ?Fwk.
    rewrite ?Acp, ?Ads, ?Alk, ?Awk, ?Atr, ?Adev, ?Aat, ?Ocp, ?Ods, ?Olk, ?Owk, ?Otr, ?Odev, ?Oat.
    split; [by split|]. split; [done|]. split; [|done]. intros _.
    split; [done|]. split; [by right|]. split; intros; rewrite !elem_of_app;
      rewrite ?list_elem_of_singleton; tauto.
  - simpl. rewrite ?Acp, ?Ads, ?Alk, ?Atr, ?Adev, ?Aat, ?Ocp, ?Ods, ?Olk, ?Otr, ?Odev, ?Oat.
    split; [done|]. split; [|done]. intros _. split; [done|]. split; [lia|].
    done.
Qed.

(** X16. The channels of a successful [unipro_tx_init_dma]: their number is at
    least 1 and at most the size of the pool, the number of free DMA
    channels and the number of free ATABL requests, and each of them holds
    the request and the channel the drivers returned for its index and is
    connected to no CPort. *)
Theorem unipro_tx_init_dma_channels env s tbl s' :
  unipro_tx_init_dma env s = Ret (0, tbl, s') →
  0 ≤ device_dma_chan_free_count env < 2 ^ 32 →
  0 ≤ UNIPRO_DMA_CHANNEL_COUNT →
  length (dma_channels s) = Z.to_nat UNIPRO_DMA_CHANNEL_COUNT →
  1 ≤ max_channel s'
    ≤ Z.min UNIPRO_DMA_CHANNEL_COUNT
        (Z.min (device_dma_chan_free_count env)
               (device_atabl_req_free_count env))
  ∧ ∀ j, Z.of_nat j < max_channel s' →
         ∃ saved,
           dma_channels s' !! j
           = Some (DmaChannel (device_dma_chan_alloc env j)
                     (device_atabl_req_alloc env j).2 0xFFFF saved)
           ∧ device_dma_chan_alloc env j ≠ 0.
Proof.
  intros Hrun Hfree Hpool Hlen.
  destruct (unipro_tx_init_dma_outcome_opens env s 0 tbl s' Hrun eq_refl)
    as [Hdma Hat].
  destruct (init_opened_frame env s)
    as (Ocp & Ods & Odev & Oat & Odc & Omx & Olk & Owk & Otr & Org).
  destruct (init_alloc_channels_spec env (Z.to_nat (init_avail_chan env)) 0
              (init_opened env s))
    as (Amx & _ & _ & _ & _ & _ & _ & _ & _ & _ & Alen & _ & Anew).
  destruct (unipro_tx_init_dma_cases env s 0 tbl s' Hdma Hat Hrun)
    as [(? & _)|[(? & _)|[(_ & ? & _)|(_ & -> & Hk & Hreq & ->)]]];
    try done.
  rewrite Omx in Amx. simpl.
  assert (Hav : init_avail_chan env
                = Z.min UNIPRO_DMA_CHANNEL_COUNT (device_dma_chan_free_count env)).
  { unfold init_avail_chan. rewrite u32_small by done.
    destruct (decide (_ > _)); lia. }
  split; [lia|]. intros j Hj.
  apply Anew; [lia | rewrite Omx; lia |]. rewrite Odc, Hlen. lia.
Qed.

(** X17. The hand-shake thresholds: whenever [unipro_tx_init_dma] has opened
    the DMA device, the watermark register of every CPort has the
    threshold bits set on top of its former value, and no other register
    has changed. *)
Theorem unipro_tx_init_dma_thresholds env s rc tbl s' :
  unipro_tx_init_dma env s = Ret (rc, tbl, s') →
  device_open_dma env ≠ 0 →
  (∀ j, 0 ≤ j < unipro_cport_count →
        regs s' (REG_TX_BUFFER_SPACE_OFFSET_REG j)
        = Z.lor (regs s (REG_TX_BUFFER_SPACE_OFFSET_REG j)) init_threshold_bits)
  ∧ (∀ r, (∀ j, 0 ≤ j < unipro_cport_count →
                REG_TX_BUFFER_SPACE_OFFSET_REG j ≠ r) →
          regs s' r = regs s r).
Proof.
  intros Hrun Hdma.
  assert (Hregs : regs s' = regs (init_thresholds (Z.to_nat unipro_cport_count) 0 s)).
  { destruct (init_opened_frame env s)
      as (_ & _ & _ & _ & _ & _ & _ & _ & _ & Org).
    destruct (decide (device_open_atabl env = 0)) as [Hat|Hat].
    - unfold unipro_tx_init_dma in Hrun. simpl in Hrun.
      destruct (decide (device_open_dma env = 0)); [done|].
      destruct (init_thresholds_frame (Z.to_nat unipro_cport_count) 0
                  (set_devs (device_open_dma env) (atabl_dev s)
                     (set_tx_fifo_lock 0 s)))
        as (_ & _ & _ & Tdev & _).
      rewrite Tdev in Hrun. simpl in Hrun.
      destruct (decide (device_open_atabl env = 0)); [|done].
      injection Hrun as <- <- <-. simpl. by apply init_thresholds_regs_only.
    - destruct (init_alloc_channels_spec env (Z.to_nat (init_avail_chan env)) 0
                  (init_opened env s))
        as (_ & _ & _ & _ & _ & _ & _ & _ & Arg & _).
      destruct (unipro_tx_init_dma_cases env s rc tbl s' Hdma Hat Hrun)
        as [(_ & _ & _ & ->)|[(_ & _ & _ & ->)|[(_ & _ & _ & _ & ->)
           |(_ & _ & _ & _ & ->)]]]; simpl; try by rewrite ?Arg.
      destruct (init_free_channels_spec
                  (Z.to_nat (max_channel
                     (init_alloc_channels env (Z.to_nat (init_avail_chan env)) 0
                        (init_opened env s)))) 0
                  (init_alloc_channels env (Z.to_nat (init_avail_chan env)) 0
                     (init_opened env s)))
        as (_ & _ & _ & _ & _ & _ & _ & Frg).
      by rewrite Frg, Arg. }
  rewrite Hregs. split.
  - intros j Hj.
    destruct (init_thresholds_regs (Z.to_nat unipro_cport_count) 0 s
                (REG_TX_BUFFER_SPACE_OFFSET_REG j)) as [[Hr _]|[_ Hno]]; [done|].
    exfalso. apply (Hno j); [lia|done].
  - intros r Hr.
    destruct (init_thresholds_regs (Z.to_nat unipro_cport_count) 0 s r)
      as [[_ (j & Hj & Hreg)]|[Hsame _]]; [|done].
    exfalso. apply (Hr j); [lia|done].
Qed.


End Init.

(** ** An invariant of the queues *)

Section Queues.
Context `{Platform}.

Lemma head_filter_ne (q : list Z) p x :
  head q = Some x → x ≠ p → head (filter (λ y, y ≠ p) q) = Some x.
Proof.
  destruct q as [|y q]; [done|]. intros [= ->] Hne.
  by rewrite filter_cons, decide_True.
Qed.

Lemma head_app_l (q : list Z) p x : head q = Some x → head (q ++ [p]) = Some x.
Proof. by destruct q. Qed.

(** A descriptor is unlinked from the queue of its CPort and freed. *)
Lemma queues_inv_delete cps ds p d :
  ds !! p = Some d →
  queues_inv cps ds →
  queues_inv
    (alter (λ c, cport_set_tx_fifo (filter (λ q, q ≠ p) (tx_fifo c)) c)
       (desc_cport d) cps)
    (delete p ds).
Proof.
  intros Hd [Hq Hn Hl Hh].
  assert (Hlook : ∀ cp c',
            alter (λ c, cport_set_tx_fifo (filter (λ q, q ≠ p) (tx_fifo c)) c)
              (desc_cport d) cps !! cp = Some c' →
            ∃ c, cps !! cp = Some c
                 ∧ tx_fifo c' = (if decide (cp = desc_cport d)
                                 then filter (λ q, q ≠ p) (tx_fifo c)
                                 else tx_fifo c)).
  { intros cp c' Hc'. destruct (decide (cp = desc_cport d)) as [->|Hne].
    - rewrite lookup_alter_eq in Hc'. destruct (cps !! desc_cport d) as [c|];
        [|done]. injection Hc' as <-. by exists c.
    - rewrite lookup_alter_ne in Hc' by done. by exists c'. }
  assert (Hin : ∀ cp c c' x,
            cps !! cp = Some c →
            tx_fifo c' = (if decide (cp = desc_cport d)
                          then filter (λ q, q ≠ p) (tx_fifo c) else tx_fifo c) →
            x ∈ tx_fifo c' → x ∈ tx_fifo c ∧ x ≠ p).
  { intros cp c c' x Hc Htx Hx. rewrite Htx in Hx.
    destruct (decide (cp = desc_cport d)) as [->|Hne].
    - apply list_elem_of_filter in Hx. tauto.
    - split; [done|]. intros ->. destruct (Hq _ _ _ Hc Hx) as (d' & Hd' & Hcp).
      congruence. }
  split.
  - intros cp c' x Hc' Hx. destruct (Hlook _ _ Hc') as (c & Hc & Htx).
    destruct (Hin _ _ _ _ Hc Htx Hx) as [Hxc Hxp].
    rewrite lookup_delete_ne by done. eauto.
  - intros cp c' Hc'. destruct (Hlook _ _ Hc') as (c & Hc & Htx). rewrite Htx.
    destruct (decide (cp = desc_cport d)); [apply NoDup_filter|]; eauto.
  - intros x dx Hx. destruct (decide (x = p)) as [->|Hne];
      [by rewrite lookup_delete_eq in Hx|].
    rewrite lookup_delete_ne in Hx by done.
    destruct (Hl _ _ Hx) as (c & Hc & Hxc).
    destruct (decide (desc_cport dx = desc_cport d)) as [Heq|Hcp].
    + rewrite Heq in *. rewrite lookup_alter_eq, Hc. simpl. eexists.
      split; [done|]. simpl. apply list_elem_of_filter. by split.
    + rewrite lookup_alter_ne by done. eauto.
  - intros cp c' x dx Hc' Hx Hdx Hb. destruct (Hlook _ _ Hc') as (c & Hc & Htx).
    destruct (Hin _ _ _ _ Hc Htx Hx) as [Hxc Hxp].
    rewrite lookup_delete_ne in Hdx by done.
    pose proof (Hh _ _ _ _ Hc Hxc Hdx Hb) as Hhd. rewrite Htx.
    destruct (decide (cp = desc_cport d)); [|done]. by apply head_filter_ne.
Qed.

(** A descriptor is rewritten in place: its CPort is kept, and it is not
    put on a channel unless it was on one or heads its queue. *)
Lemma queues_inv_update cps ds p d d' :
  ds !! p = Some d →
  desc_cport d' = desc_cport d →
  (is_Some (channel d') →
   is_Some (channel d)
   ∨ ∃ c, cps !! desc_cport d = Some c ∧ head (tx_fifo c) = Some p) →
  queues_inv cps ds →
  queues_inv cps (<[p := d']> ds).
Proof.
  intros Hd Hcp Hb [Hq Hn Hl Hh]. split.
  - intros cp c x Hc Hx. destruct (Hq _ _ _ Hc Hx) as (dx & Hdx & Hcx).
    destruct (decide (x = p)) as [->|Hne].
    + rewrite lookup_insert_eq. exists d'. split; [done|]. congruence.
    + rewrite lookup_insert_ne by done. eauto.
  - done.
  - intros x dx Hx. destruct (decide (x = p)) as [->|Hne].
    + rewrite lookup_insert_eq in Hx. injection Hx as <-. rewrite Hcp. eauto.
    + rewrite lookup_insert_ne in Hx by done. eauto.
  - intros cp c x dx Hc Hx Hdx Hbx. destruct (decide (x = p)) as [->|Hne].
    + rewrite lookup_insert_eq in Hdx. injection Hdx as <-.
      destruct (Hb Hbx) as [Hold|(c0 & Hc0 & Hhd)]; [by eapply Hh|].
      destruct (Hq _ _ _ Hc Hx) as (d0 & Hd0 & Hcp0).
      assert (d0 = d) as -> by congruence. rewrite Hcp0 in Hc0. congruence.
    + rewrite lookup_insert_ne in Hdx by done. by eapply Hh.
Qed.

(** A fresh descriptor that waits is linked at the tail of a queue. *)
Lemma queues_inv_enqueue cps ds cp p d :
  ds !! p = None →
  is_Some (cps !! cp) →
  desc_cport d = cp →
  channel d = None →
  queues_inv cps ds →
  queues_inv (alter (λ c, cport_set_tx_fifo (tx_fifo c ++ [p]) c) cp cps)
             (<[p := d]> ds).
Proof.
  intros Hp [c0 Hc0] Hcp Hch [Hq Hn Hl Hh].
  assert (Hfresh : ∀ cp' c, cps !! cp' = Some c → p ∉ tx_fifo c).
  { intros cp' c Hc Hin. destruct (Hq _ _ _ Hc Hin) as (d' & Hd' & _).
    congruence. }
  assert (Hlook : ∀ cp' c',
            alter (λ c, cport_set_tx_fifo (tx_fifo c ++ [p]) c) cp cps !! cp'
              = Some c' →
            ∃ c, cps !! cp' = Some c
                 ∧ tx_fifo c' = (if decide (cp' = cp) then tx_fifo c ++ [p]
                                 else tx_fifo c)).
  { intros cp' c' Hc'. destruct (decide (cp' = cp)) as [->|Hne].
    - rewrite lookup_alter_eq, Hc0 in Hc'. injection Hc' as <-. by exists c0.
    - rewrite lookup_alter_ne in Hc' by done. by exists c'. }
  split.
  - intros cp' c' x Hc' Hx. destruct (Hlook _ _ Hc') as (c & Hc & Htx).
    rewrite Htx in Hx. destruct (decide (x = p)) as [->|Hne].
    + rewrite lookup_insert_eq. exists d. split; [done|].
      destruct (decide (cp' = cp)) as [->|Hcp']; [done|].
      by destruct (Hfresh _ _ Hc).
    + rewrite lookup_insert_ne by done. apply (Hq _ _ _ Hc).
      destruct (decide (cp' = cp)); [|done].
      apply elem_of_app in Hx as [?|Hx]; [done|].
      by apply list_elem_of_singleton in Hx.
  - intros cp' c' Hc'. destruct (Hlook _ _ Hc') as (c & Hc & Htx). rewrite Htx.
    destruct (decide (cp' = cp)); [|eauto]. apply NoDup_app.
    split; [eauto|]. split; [|apply NoDup_singleton].
    intros x Hx ->%list_elem_of_singleton. by eapply Hfresh.
  - intros x dx Hx. destruct (decide (x = p)) as [->|Hne].
    + rewrite lookup_insert_eq in Hx. injection Hx as <-. rewrite Hcp.
      rewrite lookup_alter_eq, Hc0. simpl. eexists. split; [done|]. simpl.
      apply elem_of_app. right. apply list_elem_of_here.
    + rewrite lookup_insert_ne in Hx by done.
      destruct (Hl _ _ Hx) as (c & Hc & Hxc).
      destruct (decide (desc_cport dx = cp)) as [Heq|Hcp'].
      * rewrite Heq in *. rewrite lookup_alter_eq, Hc. simpl. eexists.
        split; [done|]. simpl. apply elem_of_app. by left.
      * rewrite lookup_alter_ne by done. eauto.
  - intros cp' c' x dx Hc' Hx Hdx Hb. destruct (Hlook _ _ Hc') as (c & Hc & Htx).
    destruct (decide (x = p)) as [->|Hne].
    + rewrite lookup_insert_eq in Hdx. injection Hdx as <-.
      rewrite Hch in Hb. by destruct Hb.
    + rewrite lookup_insert_ne in Hdx by done. rewrite Htx in Hx |- *.
      destruct (decide (cp' = cp)) as [->|Hcp'].
      * apply elem_of_app in Hx as [Hx|Hx];
          [|by apply list_elem_of_singleton in Hx].
        apply head_app_l. by eapply Hh.
      * by eapply Hh.
Qed.

(** The fields of a CPort other than its queue change. *)
Lemma queues_inv_flags cps ds cp (f : cport → cport) :
  (∀ c, tx_fifo (f c) = tx_fifo c) →
  queues_inv cps ds →
  queues_inv (alter f cp cps) ds.
Proof.
  intros Hf [Hq Hn Hl Hh].
  assert (Hlook : ∀ cp' c', alter f cp cps !! cp' = Some c' →
            ∃ c, cps !! cp' = Some c ∧ tx_fifo c' = tx_fifo c).
  { intros cp' c' Hc'. destruct (decide (cp' = cp)) as [->|Hne].
    - rewrite lookup_alter_eq in Hc'. destruct (cps !! cp) as [c|]; [|done].
      injection Hc' as <-. exists c. by rewrite Hf.
    - rewrite lookup_alter_ne in Hc' by done. by exists c'. }
  split.
  - intros cp' c' x Hc' Hx. destruct (Hlook _ _ Hc') as (c & Hc & Htx).
    rewrite Htx in Hx. eauto.
  - intros cp' c' Hc'. destruct (Hlook _ _ Hc') as (c & Hc & Htx).
    rewrite Htx. eauto.
  - intros x dx Hx. destruct (Hl _ _ Hx) as (c & Hc & Hxc).
    destruct (decide (desc_cport dx = cp)) as [Heq|Hne].
    + rewrite Heq in *. rewrite lookup_alter_eq, Hc. simpl. eexists.
      split; [done|]. by rewrite Hf.
    + rewrite lookup_alter_ne by done. eauto.
  - intros cp' c' x dx Hc' Hx Hdx Hb. destruct (Hlook _ _ Hc') as (c & Hc & Htx).
    rewrite Htx in Hx |- *. by eapply Hh.
Qed.


Lemma invoke_callback_descs d status s s' :
  invoke_callback d status s = Ret s' → descs s' = descs s.
Proof.
  unfold invoke_callback, unipro_send_cb. destruct (callback d); simpl.
  - by intros [= <-].
  - destruct (decide (priv d = 0)); simpl; [by intros [= <-]|].
    destruct (sync_descs _ !! priv d); simpl; [|done]. by intros [= <-].
  - by intros [= <-].
Qed.

Lemma invoke_callback_inv d status s s' :
  invoke_callback d status s = Ret s' → engine_inv s → engine_inv s'.
Proof.
  intros Hcb. unfold engine_inv.
  by rewrite (invoke_callback_cports _ _ _ _ Hcb),
    (invoke_callback_descs _ _ _ _ Hcb).
Qed.

Lemma unipro_xfer_dequeue_descriptor_inv p s s' :
  unipro_xfer_dequeue_descriptor p s = Ret s' → engine_inv s → engine_inv s'.
Proof.
  unfold unipro_xfer_dequeue_descriptor. intros Hrun Hinv.
  destruct (descs s !! p) as [d|] eqn:Hd; [|done]. injection Hrun as <-.
  unfold engine_inv. simpl. by apply queues_inv_delete.
Qed.

Lemma send_async_inv zalloc id buf l cb pr s rc s' :
  (∀ p, zalloc = Some p → descs s !! p = None) →
  unipro_send_async_dma zalloc id buf l cb pr s = (rc, s') →
  engine_inv s → engine_inv s'.
Proof.
  intros Hfresh Hrun Hinv. unfold unipro_send_async_dma, cport_handle in Hrun.
  destruct (cports s !! id) as [c|] eqn:Hc; [|by injection Hrun as _ <-].
  destruct (pending_reset c); [by injection Hrun as _ <-|].
  destruct zalloc as [p|]; [|by injection Hrun as _ <-].
  injection Hrun as _ <-. unfold engine_inv. simpl.
  apply queues_inv_enqueue; eauto.
Qed.

Lemma flush_walk_inv cp iter :
  ∀ s s',
    engine_inv s →
    NoDup iter →
    (∀ p, p ∈ iter → ∃ c, cports s !! cp = Some c ∧ p ∈ tx_fifo c) →
    flush_walk cp iter s = Ret s' →
    engine_inv s'.
Proof.
  induction iter as [|p iter IH]; intros s s' Hinv Hnd Hin Hrun;
    simpl in Hrun.
  - by injection Hrun as <-.
  - apply NoDup_cons in Hnd as [Hp Hnd].
    destruct (descs s !! p) as [d|] eqn:Hd; [|done]. simpl in Hrun.
    destruct (channel d) as [ci|] eqn:Hch.
    + destruct (dma_channels s !! ci) as [ch|]; [|done]. simpl in Hrun.
      apply (IH (if decide (dma_op d = 0) then s
                 else emit (EvDmaDequeue (ch_chan ch) (dma_op d)) s) s');
        try done.
      * by destruct (decide (dma_op d = 0)).
      * intros x Hx. destruct (Hin x) as (c & Hc & Hxc);
          [by apply list_elem_of_further|].
        exists c. by destruct (decide (dma_op d = 0)).
    + destruct (invoke_callback d (- ECONNRESET) (list_del cp p s))
        as [s1| |] eqn:Hcb; try done. simpl in Hrun.
      destruct (Hin p (list_elem_of_here _ _)) as (c & Hc & Hpc).
      destruct (inv_queued _ _ Hinv _ _ _ Hc Hpc) as (d' & Hd' & Hcp).
      assert (d' = d) as -> by congruence.
      pose proof (invoke_callback_cports _ _ _ _ Hcb) as Hcps.
      pose proof (invoke_callback_descs _ _ _ _ Hcb) as Hds.
      simpl in Hcps, Hds.
      apply (IH (free_desc p s1) s'); try done.
      * unfold engine_inv. simpl. rewrite Hcps, Hds, <- Hcp.
        by apply queues_inv_delete.
      * intros x Hx. destruct (Hin x) as (c' & Hc' & Hxc);
          [by apply list_elem_of_further|].
        assert (c' = c) as -> by congruence. simpl. rewrite Hcps.
        rewrite lookup_alter_eq, Hc. simpl. eexists. split; [done|]. simpl.
        apply list_elem_of_filter. split; [|done]. by intros ->.
Qed.

Lemma unipro_flush_cport_inv cp s s' :
  unipro_flush_cport cp s = Ret s' → engine_inv s → engine_inv s'.
Proof.
  unfold unipro_flush_cport. intros Hrun Hinv.
  destruct (cports s !! cp) as [c|] eqn:Hc; [|done]. simpl in Hrun.
  destruct (if list_is_empty (tx_fifo c) then Ret s
            else flush_walk cp (reverse (tx_fifo c)) s) as [s1| |] eqn:Hwalk;
    try done. simpl in Hrun.
  assert (Hinv1 : engine_inv s1).
  { destruct (list_is_empty (tx_fifo c)); [by injection Hwalk as <-|].
    eapply flush_walk_inv; [done| | |done].
    - apply NoDup_reverse_2. by eapply inv_nodup.
    - intros p Hp. exists c. split; [done|]. by apply elem_of_reverse. }
  destruct (cports s1 !! cp) as [c1|]; [|done]. simpl in Hrun.
  injection Hrun as <-. unfold engine_inv.
  destruct (decide (reset_completion_cb c1 = 0)); simpl;
    by apply queues_inv_flags.
Qed.

Lemma pick_loop_inv n :
  ∀ start s r s',
    engine_inv s →
    pick_tx_descriptor_loop n start s = Ret (r, s') →
    engine_inv s'
    ∧ ∀ p, r = Some p →
           ∃ c d, descs s' !! p = Some d ∧ channel d = None
                  ∧ cports s' !! desc_cport d = Some c
                  ∧ head (tx_fifo c) = Some p.
Proof.
  induction n as [|n IH]; intros start s r s' Hinv Hrun.
  - simpl in Hrun. injection Hrun as <- <-. by split.
  - cbn [pick_tx_descriptor_loop] in Hrun. unfold cport_handle in Hrun.
    set (id0 := start `mod` unipro_cport_count) in *.
    destruct (cports s !! id0) as [c|] eqn:Hc; [|by eapply IH].
    assert (Hfl : ∀ s1,
              (if pending_reset c then unipro_flush_cport id0 s else Ret s)
              = Ret s1 → engine_inv s1).
    { intros s1 Hs1. destruct (pending_reset c).
      - by eapply unipro_flush_cport_inv.
      - by injection Hs1 as <-. }
    destruct (list_is_empty (tx_fifo c)).
    + destruct (if pending_reset c then unipro_flush_cport id0 s else Ret s)
        as [s1| |] eqn:Hs1; try done. simpl in Hrun.
      eapply IH; [|done]. by apply Hfl.
    + destruct (if pending_reset c then unipro_flush_cport id0 s else Ret s)
        as [s1| |] eqn:Hs1; try done. simpl in Hrun.
      specialize (Hfl s1 eq_refl).
      destruct (cports s1 !! id0) as [c1|] eqn:Hc1; [|done]. simpl in Hrun.
      destruct (head (tx_fifo c1)) as [p|] eqn:Hhd; [|done]. simpl in Hrun.
      destruct (descs s1 !! p) as [d|] eqn:Hd; [|done]. simpl in Hrun.
      destruct (channel d) eqn:Hch; [by eapply IH|].
      injection Hrun as <- <-. split; [done|]. intros p' [= <-].
      assert (Hp : p ∈ tx_fifo c1).
      { destruct (tx_fifo c1); [done|]. injection Hhd as ->.
        apply list_elem_of_here. }
      destruct (inv_queued _ _ Hfl _ _ _ Hc1 Hp) as (d' & Hd' & Hcp).
      assert (d' = d) as -> by congruence.
      exists c1, d. rewrite Hcp. by repeat split.
Qed.

Lemma unipro_dma_xfer_inv env p ci s rc s' :
  unipro_dma_xfer env p ci s = Ret (rc, s') →
  (∀ d, descs s !! p = Some d →
        ∃ c, cports s !! desc_cport d = Some c ∧ head (tx_fifo c) = Some p) →
  engine_inv s → engine_inv s'.
Proof.
  unfold unipro_dma_xfer. intros Hrun Hhead Hinv.
  destruct (descs s !! p) as [d|] eqn:Hd; [|done]. simpl in Hrun.
  destruct (DEBUGASSERT (bool_decide (data_offset d = 0))); try done.
  simpl in Hrun. destruct (dma_op_alloc env) as [arc op].
  destruct (decide (arc ≠ OK)); [by injection Hrun as _ <-|].
  destruct (decide (op = 0)); [done|].
  destruct (cports s !! desc_cport d) as [c|] eqn:Hc; [|done]. simpl in Hrun.
  destruct (dma_channels s !! ci) as [ch|]; [|done]. simpl in Hrun.
  destruct (decide (dma_enqueue env ≠ 0)); injection Hrun as _ <-;
    unfold engine_inv; simpl.
  - rewrite insert_insert_eq. by apply (queues_inv_update _ _ _ d);
      [| |intros []|].
  - apply (queues_inv_update _ _ _ d); [done|done| |done]. intros _. right.
    destruct (Hhead d eq_refl) as (c' & Hc' & Hhd). exists c'. by split.
Qed.

Lemma unipro_tx_worker_step_inv env next s r s' :
  unipro_tx_worker_step env next s = Ret (r, s') →
  engine_inv s → engine_inv s'.
Proof.
  unfold unipro_tx_worker_step, pick_tx_descriptor. intros Hrun Hinv.
  destruct (pick_tx_descriptor_loop (Z.to_nat unipro_cport_count) next s)
    as [[picked s1]| |] eqn:Hpick; try done. simpl in Hrun.
  destruct (pick_loop_inv _ _ _ _ _ Hinv Hpick) as [Hinv1 Hhead].
  destruct picked as [p|]; [|by injection Hrun as _ <-].
  destruct (descs s1 !! p) as [d|] eqn:Hd; [|done]. simpl in Hrun.
  destruct (cports s1 !! desc_cport d) as [c|] eqn:Hc; [|done]. simpl in Hrun.
  destruct (pick_dma_channel s1 c) as [ci| |]; try done. simpl in Hrun.
  destruct (unipro_dma_xfer env p (Z.to_nat ci) s1) as [[rc s2]| |] eqn:Hx;
    try done. simpl in Hrun. injection Hrun as _ <-.
  eapply unipro_dma_xfer_inv; [done| |done].
  intros d' Hd'. destruct (Hhead p eq_refl) as (c' & d'' & Hd'' & _ & Hc' & Hhd).
  assert (d'' = d') as -> by congruence. eauto.
Qed.

Lemma on_event_inv event mask blk fs fl s' :
  (∀ r s fl s', blk r s = Ret (fl, s') → engine_inv s → engine_inv s') →
  on_event event mask blk fs = Ret (fl, s') →
  engine_inv fs.2 → engine_inv s'.
Proof.
  intros Hblk Hrun Hinv. unfold on_event in Hrun. destruct fs as [f s].
  simpl in *. destruct f as [rc|r]; [by injection Hrun as _ <-|].
  destruct (decide (Z.land event mask ≠ 0)); [by eapply Hblk|].
  by injection Hrun as _ <-.
Qed.

Lemma tx_callback_start_inv env p s fl s' :
  tx_callback_start env p s = Ret (fl, s') →
  cports s' = cports s ∧ descs s' = descs s.
Proof.
  unfold tx_callback_start. intros Hrun.
  destruct (descs s !! p) as [d|]; [|done]. simpl in Hrun.
  destruct (channel d) as [ci|]; [|done]. simpl in Hrun.
  destruct (dma_channels s !! ci) as [ch|]; [|done]. simpl in Hrun.
  destruct (cports s !! desc_cport d) as [cp|]; [|done]. simpl in Hrun.
  repeat (match type of Hrun with
          | context [decide ?P] => destruct (decide P)
          end; simpl in Hrun);
    by injection Hrun as _ <-.
Qed.

Lemma tx_callback_complete_inv env op p s fl s' :
  tx_callback_complete env op p s = Ret (fl, s') →
  engine_inv s → engine_inv s'.
Proof.
  unfold tx_callback_complete. intros Hrun Hinv.
  destruct (descs s !! p) as [d|] eqn:Hd; [|done]. simpl in Hrun.
  destruct (decide (data_offset d >= len d)).
  - destruct (cports s !! desc_cport d) as [cp|]; [|done]. simpl in Hrun.
    destruct (invoke_callback d 0 _) as [s1| |] eqn:Hcb; try done.
    simpl in Hrun. apply invoke_callback_inv in Hcb; [|done].
    destruct (channel d) as [ci|]; [|done]. simpl in Hrun.
    destruct (dma_channels s1 !! ci) as [ch|]; [|done]. simpl in Hrun.
    destruct (unipro_xfer_dequeue_descriptor p _) as [s2| |] eqn:Hdq; try done.
    simpl in Hrun. apply unipro_xfer_dequeue_descriptor_inv in Hdq; [|done].
    by destruct (decide (dma_op_free env ≠ 0)); injection Hrun as _ <-.
  - simpl in Hrun.
    assert (Hinv' : queues_inv (cports s) (<[p:=desc_set_channel None d]> (descs s))).
    { by apply (queues_inv_update _ _ _ d); [| |intros []|]. }
    by destruct (decide (dma_op_free env ≠ 0)); injection Hrun as _ <-.
Qed.

Lemma tx_callback_error_inv env p s fl s' :
  tx_callback_error env p s = Ret (fl, s') → engine_inv s → engine_inv s'.
Proof.
  unfold tx_callback_error. intros Hrun Hinv.
  destruct (descs s !! p) as [d|]; [|done]. simpl in Hrun.
  destruct (channel d) as [ci|]; [|done]. simpl in Hrun.
  destruct (dma_channels s !! ci) as [ch|]; [|done]. simpl in Hrun.
  by destruct (decide (error_req_is_activated env ≠ 0)); injection Hrun as _ <-.
Qed.

Lemma tx_callback_recovered_inv env p s fl s' :
  tx_callback_recovered env p s = Ret (fl, s') → engine_inv s → engine_inv s'.
Proof.
  unfold tx_callback_recovered. intros Hrun Hinv.
  destruct (descs s !! p) as [d|]; [|done]. simpl in Hrun.
  destruct (channel d) as [ci|]; [|done]. simpl in Hrun.
  destruct (dma_channels s !! ci) as [ch|]; [|done]. simpl in Hrun.
  by injection Hrun as _ <-.
Qed.

Lemma tx_callback_dequeued_inv op p r s fl s' :
  tx_callback_dequeued op p r s = Ret (fl, s') → engine_inv s → engine_inv s'.
Proof.
  unfold tx_callback_dequeued. intros Hrun Hinv.
  destruct (descs s !! p) as [d|]; [|done]. simpl in Hrun.
  destruct (invoke_callback d 0 _) as [s1| |] eqn:Hcb; try done.
  simpl in Hrun. apply invoke_callback_inv in Hcb; [|done].
  destruct (unipro_xfer_dequeue_descriptor p s1) as [s2| |] eqn:Hdq; try done.
  simpl in Hrun. apply unipro_xfer_dequeue_descriptor_inv in Hdq; [|done].
  by injection Hrun as _ <-.
Qed.

Lemma unipro_dma_tx_callback_inv env op event p s rc s' :
  unipro_dma_tx_callback env op event p s = Ret (rc, s') →
  engine_inv s → engine_inv s'.
Proof.
  unfold unipro_dma_tx_callback. intros Hrun Hinv.
  destruct (on_event event DEVICE_DMA_CALLBACK_EVENT_START _ _)
    as [[f1 s1]| |] eqn:H1; try done. simpl in Hrun.
  destruct (on_event event DEVICE_DMA_CALLBACK_EVENT_COMPLETE _ _)
    as [[f2 s2]| |] eqn:H2; try done. simpl in Hrun.
  destruct (on_event event DEVICE_DMA_CALLBACK_EVENT_ERROR _ _)
    as [[f3 s3]| |] eqn:H3; try done. simpl in Hrun.
  destruct (on_event event DEVICE_DMA_CALLBACK_EVENT_RECOVERED _ _)
    as [[f4 s4]| |] eqn:H4; try done. simpl in Hrun.
  destruct (on_event event DEVICE_DMA_CALLBACK_EVENT_DEQUEUED _ _)
    as [[f5 s5]| |] eqn:H5; try done. simpl in Hrun.
  assert (s' = s5) as -> by (by destruct f5; injection Hrun as _ <-).
  eapply on_event_inv; [|exact H5|]; [apply tx_callback_dequeued_inv|].
  eapply on_event_inv; [|exact H4|];
    [intros ????; apply tx_callback_recovered_inv|].
  eapply on_event_inv; [|exact H3|]; [intros ????; apply tx_callback_error_inv|].
  eapply on_event_inv; [|exact H2|];
    [intros ????; apply tx_callback_complete_inv|].
  eapply on_event_inv; [|exact H1|]; [|done].
  intros r0 t fl t' Ht Hi. unfold engine_inv.
  destruct (tx_callback_start_inv _ _ _ _ _ Ht) as [Hcp Hds].
  by rewrite Hcp, Hds.
Qed.

(** Every step of the engine keeps the queues well formed. *)
Lemma engine_step_inv s s' : engine_step s s' → engine_inv s → engine_inv s'.
Proof.
  intros Hstep Hinv. destruct Hstep
    as [zalloc id buf l cb pr s rc s' Hfresh Hrun
       |zalloc sync id buf l s r s' Hfresh Hrun
       |sync s rc s' Hrun
       |cp cb priv s
       |env next s r s' Hrun
       |env op event p s rc s' Hrun
       |env s rc tbl s' Hrun].
  - by eapply send_async_inv.
  - unfold unipro_send_dma_submit in Hrun.
    destruct (unipro_send_async_dma zalloc id buf l CbSendSync sync _)
      as [rc s1] eqn:Hs1.
    apply send_async_inv in Hs1; [|done|done].
    by destruct (decide (rc ≠ 0)); injection Hrun as _ <-.
  - unfold unipro_send_dma_wait in Hrun.
    destruct (sync_descs s !! sync) as [sd|]; [|done]. simpl in Hrun.
    destruct (decide (lock sd <= 0)); [done|].
    destruct (retval sd); [|done]. simpl in Hrun. by injection Hrun as _ <-.
  - unfold engine_inv, request_reset. simpl. by apply queues_inv_flags.
  - by eapply unipro_tx_worker_step_inv.
  - by eapply unipro_dma_tx_callback_inv.
  - unfold engine_inv.
    destruct (unipro_tx_init_dma_frame _ _ _ _ _ Hrun) as [Hcp Hds].
    by rewrite Hcp, Hds.
Qed.


Lemma engine_steps_inv s s' :
  rtc engine_step s s' → engine_inv s → engine_inv s'.
Proof.
  induction 1 as [|s t s' Hstep _ IH]; [done|].
  intros Hinv. by eapply IH, engine_step_inv.
Qed.

(** A driver with empty queues and no descriptor satisfies the
    invariant. *)
Lemma engine_inv_empty s :
  (∀ cp c, cports s !! cp = Some c → tx_fifo c = []) →
  descs s = ∅ →
  engine_inv s.
Proof.
  intros Hq Hd. unfold engine_inv. rewrite Hd. split.
  - intros cp c p Hc Hp. rewrite (Hq _ _ Hc) in Hp. by apply elem_of_nil in Hp.
  - intros cp c Hc. rewrite (Hq _ _ Hc). apply NoDup_nil_2.
  - intros p d Hp. by rewrite lookup_empty in Hp.
  - intros cp c p d Hc Hp. rewrite (Hq _ _ Hc) in Hp. by apply elem_of_nil in Hp.
Qed.

(** X19. However sends, blocking sends, resets, turns of the worker, DMA
    events and initialisations follow one another, the queues stay well
    formed; in particular at most one descriptor of a CPort is on a
    channel at any time, and it is the head of the CPort's queue. *)
Theorem one_bound_descriptor_per_cport s0 s :
  engine_inv s0 →
  rtc engine_step s0 s →
  engine_inv s
  ∧ ∀ cp c p1 p2 d1 d2,
      cports s !! cp = Some c →
      p1 ∈ tx_fifo c → p2 ∈ tx_fifo c →
      descs s !! p1 = Some d1 → descs s !! p2 = Some d2 →
      is_Some (channel d1) → is_Some (channel d2) →
      p1 = p2 ∧ head (tx_fifo c) = Some p1.
Proof.
  intros Hinv0 Hsteps.
  assert (Hinv : engine_inv s) by by eapply engine_steps_inv.
  split; [done|].
  intros cp c p1 p2 d1 d2 Hc Hp1 Hp2 Hd1 Hd2 Hb1 Hb2.
  pose proof (inv_head _ _ Hinv _ _ _ _ Hc Hp1 Hd1 Hb1) as H1.
  pose proof (inv_head _ _ Hinv _ _ _ _ Hc Hp2 Hd2 Hb2) as H2.
  split; [congruence|done].
Qed.

End Queues.

(** * Worked examples *)

Lemma start_event_binds_channel_witness :
  ∃ s', unipro_dma_tx_callback (H := bridge) env_inactive 0x77 1 0x5000
          busy_state = Ret (OK, s')
        ∧ ch_cportid <$> dma_channels s' !! 1%nat = Some 1
        ∧ trace s' = trace busy_state
                     ++ [EvAtablConnect 1 0x21; EvAtablActivate 0x21].
Proof.
  destruct (start_event_binds_channel (H := bridge) env_inactive 0x77 1 0x5000
              busy_state busy_desc 1%nat (idle_channel 1)
              (Cport 1 [0x5000] false 0 0 0x2000))
    as (s' & Hrun & Hdc & Htr & _);
    [by vm_compute | reflexivity | reflexivity | reflexivity | reflexivity
    | reflexivity | reflexivity | reflexivity | reflexivity | reflexivity
    | reflexivity |].
  exists s'. split; [exact Hrun|]. split; [by rewrite Hdc|exact Htr].
Defined.

Lemma start_event_failure_aborts_witness :
  ∃ s', unipro_dma_tx_callback (H := bridge) env_connect_fails 0x77 3 0x5000
          busy_state = Ret (5, s')
        ∧ descs s' = descs busy_state
        ∧ tx_fifo_lock s' = tx_fifo_lock busy_state.
Proof.
  destruct (start_event_failure_aborts (H := bridge) env_connect_fails 0x77 3
              0x5000 busy_state busy_desc 1%nat (idle_channel 1)
              (Cport 1 [0x5000] false 0 0 0x2000))
    as (rc & s' & ch' & Hrun & _ & Hrc & _ & _ & _ & _ & Hds & _ & _ & _ & Hlk);
    [by vm_compute | reflexivity | reflexivity | reflexivity | reflexivity
    | left; by vm_compute |].
  exists s'. rewrite Hrc in Hrun. split; [exact Hrun|]. by split.
Defined.

Lemma dequeued_event_spec_witness :
  ∃ s', unipro_dma_tx_callback (H := bridge) env_inactive 0x77 16 0x5000
          busy_state = Ret (OK, s')
        ∧ trace s' = trace busy_state
                     ++ [EvDmaOpFree 0x77;
                         EvCallback 1 (CbUser 0x700) 0 0x9000 0x42;
                         EvFree 0x5000]
        ∧ tx_fifo <$> cports s' !! 1 = Some []
        ∧ tx_fifo_lock s' = tx_fifo_lock busy_state + 1.
Proof.
  destruct (dequeued_event_spec (H := bridge) env_inactive 0x77 16 0x5000
              busy_state busy_desc (Cport 1 [0x5000] false 0 0 0x2000))
    as (s' & Hrun & Htr & _ & Hcp & _ & Hlk & _);
    [reflexivity | reflexivity | reflexivity | reflexivity | by vm_compute
    | reflexivity | reflexivity | by intros ? |].
  exists s'. split; [exact Hrun|]. split; [exact Htr|].
  split; [by rewrite Hcp|exact Hlk].
Defined.




Lemma unipro_send_dma_error_passthrough_witness :
  unipro_send_dma_submit (Some 0x5000) 0x8000 7 0x9000 128 idle_state
  = (Some (- EINVAL), idle_state).
Proof.
  destruct (unipro_send_dma_error_passthrough (Some 0x5000) 0x8000 7 0x9000 128
              idle_state) as (rc & Hrun & _ & Hrc);
    [reflexivity | left; reflexivity |].
  rewrite Hrun. by rewrite Hrc.
Defined.

Lemma unipro_send_cb_wakes_sender_witness :
  ∃ s1 s2,
    unipro_send_cb (- ECONNRESET) 0x9000 0x8000 blocked_state = Ret (0, s1)
    ∧ unipro_send_dma_wait 0x8000 s1 = Ret (Some (- ECONNRESET, s2))
    ∧ sync_descs s2 = ∅.
Proof.
  destruct (unipro_send_cb_wakes_sender (- ECONNRESET) 0x9000 0x8000
              blocked_state (DescSync 0 None))
    as (_ & s1 & s2 & Hcb & Hwait & Hsy & _);
    [by vm_compute | reflexivity | by vm_compute |].
  exists s1, s2. split; [exact Hcb|]. split; [exact Hwait|]. by rewrite Hsy.
Defined.



Lemma pick_tx_descriptor_round_robin_witness :
  pick_tx_descriptor (H := bridge) 0 queued_state
    = Ret (Some 0x5000, queued_state)
  ∧ pick_tx_descriptor (H := bridge) 2 idle_state = Ret (None, idle_state).
Proof.
  split.
  - destruct (pick_tx_descriptor_round_robin (H := bridge) 0 queued_state)
      as [Hpick _]; [split; reflexivity|].
    apply (Hpick 1 0x5000); [split; [discriminate|reflexivity]| |].
    + intros j Hj. assert (j = 0) as -> by lia. split; [reflexivity|].
      by left.
    + exists (Cport 1 [0x5000] false 0 0 0x2000). by repeat split.
  - destruct (pick_tx_descriptor_round_robin (H := bridge) 2 idle_state)
      as [_ Hnone]; [split; reflexivity|].
    apply Hnone. intros j Hj. change unipro_cport_count with 3 in *.
    assert (j = 0 ∨ j = 1 ∨ j = 2) as [ -> | [ -> | -> ] ] by lia;
      (split; [reflexivity|by left]).
Defined.



Lemma unipro_dma_xfer_first_transfer_witness :
  ∃ s', unipro_dma_xfer (H := bridge_debug) (XferEnv (OK, 0x77) 0) 0x5000 1
          queued_state = Ret (0, s')
        ∧ descs s' !! 0x5000 = Some busy_desc
        ∧ trace s'
          = [EvDmaEnqueue 0x11 0x77 (DmaOp 0x5000 31 1 64 0x9000 0x2000)].
Proof.
  destruct (unipro_dma_xfer_first_transfer (H := bridge_debug)
              (XferEnv (OK, 0x77) 0) 0x5000 1 queued_state
              (Desc 1 0x9000 64 0x42 (CbUser 0x700) 0 None 0)
              (Cport 1 [0x5000] false 0 0 0x2000) (idle_channel 1) 0x77)
    as (s' & Hrun & Hds & Htr & _);
    [reflexivity | reflexivity | split; [discriminate|reflexivity] | reflexivity
    | reflexivity | reflexivity | discriminate | reflexivity |].
  exists s'. split; [exact Hrun|]. split; [by rewrite Hds|exact Htr].
Defined.

Lemma unipro_dma_xfer_failure_witness :
  ∃ s', unipro_dma_xfer (H := bridge_debug) (XferEnv (OK, 0x77) (-28)) 0x5000 1
          queued_state = Ret (-28, s')
        ∧ descs s' !! 0x5000
          = Some (Desc 1 0x9000 64 0x42 (CbUser 0x700) 64 None 0x77)
        ∧ cports s' = cports queued_state.
Proof.
  destruct (unipro_dma_xfer_failure (H := bridge_debug)
              (XferEnv (OK, 0x77) (-28)) 0x5000 1 queued_state
              (Desc 1 0x9000 64 0x42 (CbUser 0x700) 0 None 0)
              (Cport 1 [0x5000] false 0 0 0x2000) (idle_channel 1))
    as (rc & s' & Hrun & _ & _ & Henq & Hcp & _);
    [reflexivity | reflexivity | split; [discriminate|reflexivity] | reflexivity
    | reflexivity | right; by repeat split |].
  destruct (Henq eq_refl) as (-> & Hds & _).
  exists s'. split; [exact Hrun|]. split; [by rewrite Hds|exact Hcp].
Defined.

Lemma unipro_tx_worker_step_dispatches_witness :
  ∃ s', unipro_tx_worker_step (H := bridge) (XferEnv (OK, 0x77) 0) 0
          queued_state = Ret (Some (2, 0), s')
        ∧ descs s' !! 0x5000 = Some busy_desc.
Proof.
  destruct (unipro_tx_worker_step_dispatches (H := bridge)
              (XferEnv (OK, 0x77) 0) 0 queued_state queued_state 0x5000
              (Desc 1 0x9000 64 0x42 (CbUser 0x700) 0 None 0)
              (Cport 1 [0x5000] false 0 0 0x2000) (idle_channel 1) 0x77)
    as (s' & Hrun & Hds & _);
    [reflexivity | reflexivity | reflexivity | split; [discriminate|reflexivity]
    | reflexivity | split; [discriminate|reflexivity]
    | split; [discriminate|reflexivity] | reflexivity | reflexivity
    | discriminate | reflexivity |].
  exists s'. split; [exact Hrun|]. by rewrite Hds.
Defined.


Lemma unipro_tx_init_dma_outcome_witness :
  worker_thread (after_init bridge_debug env_three_channels boot_state) = true
  ∧ 1 ≤ max_channel (after_init bridge_debug env_three_channels boot_state)
  ∧ worker_thread (after_init bridge_debug env_no_thread boot_state) = false
  ∧ EvDeviceClose 1 ∈ trace (after_init bridge_debug env_no_thread boot_state).
Proof.
  destruct (unipro_tx_init_dma_outcome (H := bridge_debug) env_three_channels
              boot_state 0 true
              (after_init bridge_debug env_three_channels boot_state))
    as (_ & Hok & _); [vm_compute; reflexivity|].
  destruct (Hok eq_refl) as (Hwk & Hmx & _).
  destruct (unipro_tx_init_dma_outcome (H := bridge_debug) env_no_thread
              boot_state 11 false
              (after_init bridge_debug env_no_thread boot_state))
    as (_ & _ & Hfail & _); [vm_compute; reflexivity|].
  destruct (Hfail ltac:(discriminate)) as (Hwk' & _ & Hclose & _).
  split; [exact Hwk|]. split; [exact Hmx|]. split; [exact Hwk'|].
  apply Hclose. discriminate.
Defined.

Lemma unipro_tx_init_dma_channels_witness :
  1 ≤ max_channel (after_init bridge_debug env_three_channels boot_state) ≤ 3
  ∧ ∃ saved,
      dma_channels (after_init bridge_debug env_three_channels boot_state)
        !! 2%nat
      = Some (DmaChannel 0x12 0x22 0xFFFF saved).
Proof.
  destruct (unipro_tx_init_dma_channels (H := bridge_debug) env_three_channels
              boot_state true
              (after_init bridge_debug env_three_channels boot_state))
    as [Hmx Hch];
    [vm_compute; reflexivity | split; [discriminate|reflexivity] | discriminate
    | reflexivity |].
  split; [exact Hmx|].
  destruct (Hch 2%nat) as (saved & Hlook & _); [reflexivity|].
  by exists saved.
Defined.

Lemma unipro_tx_init_dma_thresholds_witness :
  regs (after_init bridge_debug env_three_channels boot_state) (0x400 + 4 * 2)
    = 0x2030
  ∧ regs (after_init bridge_debug env_three_channels boot_state) 0
    = regs boot_state 0.
Proof.
  destruct (unipro_tx_init_dma_thresholds (H := bridge_debug)
              env_three_channels boot_state 0 true
              (after_init bridge_debug env_three_channels boot_state))
    as [Hset Hkeep]; [vm_compute; reflexivity | discriminate |].
  split.
  - apply (Hset 2). split; [discriminate|reflexivity].
  - apply Hkeep. intros j Hj. change (REG_TX_BUFFER_SPACE_OFFSET_REG j)
      with (0x400 + 4 * j). lia.
Defined.


Lemma one_bound_descriptor_per_cport_witness :
  engine_inv two_queued_state
  ∧ head [0x5000; 0x6000] = Some 0x5000.
Proof.
  destruct (one_bound_descriptor_per_cport (H := bridge) idle_state
              two_queued_state) as [Hinv Hone].
  - apply engine_inv_empty; [|reflexivity].
    intros cp c Hc. change (cports idle_state)
      with (list_to_map [(0, idle_cport 0); (1, idle_cport 1);
                         (2, idle_cport 2)] : gmap Z cport) in Hc.
    apply elem_of_list_to_map_2 in Hc.
    repeat (apply elem_of_cons in Hc as [[= -> ->]|Hc]; [reflexivity|]).
    by apply elem_of_nil in Hc.
  - eapply rtc_l.
    { eapply (step_send_async (Some 0x5000) 1 0x9000 64 (CbUser 0x700) 0x42
                idle_state 0 queued_state); [by intros p [= <-]|reflexivity]. }
    eapply rtc_l.
    { eapply (step_worker (XferEnv (OK, 0x77) 0) 0 queued_state (Some (2, 0))
                busy_state). vm_compute. reflexivity. }
    eapply rtc_l; [|apply rtc_refl].
    eapply (step_send_async (Some 0x6000) 1 0xA000 32 (CbUser 0x700) 0x43
              busy_state 0 two_queued_state); [by intros p [= <-]|reflexivity].
  - split; [exact Hinv|].
    refine (proj2 (Hone 1 (Cport 1 [0x5000; 0x6000] false 0 0 0x2000)
                     0x5000 0x5000 busy_desc busy_desc _ _ _ _ _ _ _)).
    + vm_compute; reflexivity.
    + apply list_elem_of_here.
    + apply list_elem_of_here.
    + vm_compute; reflexivity.
    + vm_compute; reflexivity.
    + by eexists.
    + by eexists.
Defined.
